(** * Casino TAO validator: the SQLite persistence layer
    (casinotao/validator/database.py), shallowly embedded.

    Each Python function of the module becomes a computation in a small
    state-and-exception monad [M] over the committed tables of the store,
    the pending (uncommitted) tables of the open connection and the log.
    The environment [Env] supplies what the code reads from the outside
    world: the clock, the local time zone of the host, and whether the
    storage engine faults at connect, execute or commit time.

    Modelling choices:
    - numbers stored as REAL or passed as Python [float] are modelled as
      [Z]; sums are Python's [sum], the left fold of [+] from 0;
    - a Python dict is an association list in insertion order, updated by
      [dict_set] (overwrite in place, otherwise append);
    - the JSON text of a serialised object is abstracted as its list of
      members (key, value) in order: [json.dumps] emits the members of the
      dict, [json.loads] rebuilds a dict from them;
    - SQL [CURRENT_TIMESTAMP] is the store's clock, [env_now], in seconds. *)

From Stdlib Require Import ZArith List String Ascii Bool Lia.
From Stdlib Require Import Decimal DecimalString DecimalZ DecimalPos.
From Stdlib Require Import Sorted Permutation.
Import ListNotations.
Open Scope Z_scope.

(** ** Python values *)

(** [str(k)] for a Python [int]: decimal digits, with a leading ["-"] for
    negative numbers, ["0"] for zero. *)
Definition py_str_int (z : Z) : string :=
  NilZero.string_of_int (Z.to_int z).

(** Keys of the dicts the code builds: [int] or [str]. *)
Inductive pykey := KInt (z : Z) | KStr (s : string).

Definition pykey_eqb (a b : pykey) : bool :=
  match a, b with
  | KInt x, KInt y => Z.eqb x y
  | KStr x, KStr y => String.eqb x y
  | _, _ => false
  end.

Definition pydict := list (pykey * Z).

(** [d[k]] (None when the key is absent, where Python raises KeyError). *)
Fixpoint dict_get (k : pykey) (d : pydict) : option Z :=
  match d with
  | [] => None
  | (k', v) :: d' => if pykey_eqb k k' then Some v else dict_get k d'
  end.

(** [d[k] = v]: overwrite in place when present, append otherwise. *)
Fixpoint dict_set (k : pykey) (v : Z) (d : pydict) : pydict :=
  match d with
  | [] => [(k, v)]
  | (k', v') :: d' =>
      if pykey_eqb k k' then (k', v) :: d' else (k', v') :: dict_set k v d'
  end.

(** A JSON object, as the list of its members. *)
Definition json_obj := list (string * Z).

(** [json.dumps] of a dict: keys become JSON strings ([int] keys through
    [str]). *)
Definition json_key (k : pykey) : string :=
  match k with KInt z => py_str_int z | KStr s => s end.

Definition json_dumps (d : pydict) : json_obj :=
  map (fun '(k, v) => (json_key k, v)) d.

(** [json.loads] of an object: a dict with [str] keys, later duplicates
    overwriting earlier ones. *)
Definition json_loads (j : json_obj) : pydict :=
  fold_left (fun acc '(s, v) => dict_set (KStr s) v acc) j [].

(** [{str(k): v for k, v in d.items()}] for a [Dict[int, float]]. *)
Definition str_keys (d : list (Z * Z)) : pydict :=
  fold_left (fun acc '(k, v) => dict_set (KStr (py_str_int k)) v acc) d [].

(** Python [sum(xs)]. *)
Definition py_sum (xs : list Z) : Z := fold_left Z.add xs 0.

(** Python [str.lower] on ASCII text: A-Z become a-z, the rest is kept. *)
Definition ascii_lower (c : ascii) : ascii :=
  let n := nat_of_ascii c in
  if (65 <=? n)%nat && (n <=? 90)%nat then ascii_of_nat (n + 32) else c.

Fixpoint py_lower (s : string) : string :=
  match s with
  | EmptyString => EmptyString
  | String c s' => String (ascii_lower c) (py_lower s')
  end.

(** ** Rows of the four tables *)

Record snapshot_row := mkSnapshotRow {
  sn_id : Z;
  sn_block_number : Z;
  sn_timestamp : Z;
  sn_total_miners : Z;
  sn_total_volume : Z;
  sn_scores_json : json_obj;
  sn_volumes_json : json_obj
}.

Record miner_row := mkMinerRow {
  md_uid : Z;
  md_hotkey : string;
  md_coldkey : string;
  md_evm_address : option string;
  md_daily_volumes_json : list Z;
  md_weighted_volume : Z;
  md_score : Z;
  md_last_updated : Z
}.

(** [bet_events]; the surrogate [id] column is read by no query and is
    left out. *)
Record bet_row := mkBetRow {
  be_evm_address : string;
  be_game_id : Z;
  be_amount : Z;
  be_side : Z;
  be_block_number : Z;
  be_timestamp : Z
}.

(** [wallet_mappings]; the surrogate [id] column is read by no query and
    is left out. *)
Record wallet_row := mkWalletRow {
  wm_coldkey : string;
  wm_evm_address : string;
  wm_signature : string;
  wm_message : string;
  wm_timestamp : Z;
  wm_verified_at : Z
}.

(** The store: the four tables, and the AUTOINCREMENT counter of
    [snapshots] (its entry in [sqlite_sequence]). *)
Record DB := mkDB {
  snapshots : list snapshot_row;
  snapshots_seq : Z;
  miner_data : list miner_row;
  bet_events : list bet_row;
  wallet_mappings : list wallet_row
}.

Definition set_snapshots (l : list snapshot_row) (seq : Z) (d : DB) : DB :=
  mkDB l seq (miner_data d) (bet_events d) (wallet_mappings d).
Definition set_miner_data (l : list miner_row) (d : DB) : DB :=
  mkDB (snapshots d) (snapshots_seq d) l (bet_events d) (wallet_mappings d).
Definition set_bet_events (l : list bet_row) (d : DB) : DB :=
  mkDB (snapshots d) (snapshots_seq d) (miner_data d) l (wallet_mappings d).
Definition set_wallet_mappings (l : list wallet_row) (d : DB) : DB :=
  mkDB (snapshots d) (snapshots_seq d) (miner_data d) (bet_events d) l.

(** ** The outside world, the log, and the monad *)

(** Where the storage engine raises [sqlite3.OperationalError] during a
    call, if anywhere. *)
Inductive Fault := NoFault | FaultConnect | FaultExecute | FaultCommit.

Record Env := mkEnv {
  env_now : Z;         (** Unix time in whole seconds *)
  env_utc_offset : Z;  (** the host's local UTC offset, in seconds *)
  env_fault : Fault
}.

Inductive PyExc := OperationalError.

Inductive LogLevel := LDebug | LInfo | LError.

Inductive LogMsg :=
| SnapshotSaved (block_number : Z)
| CleanedUp (deleted : Z)
| WalletSaved (coldkey_prefix evm_prefix : string)
| WalletSaveFailed
| BetCacheError.

(** Committed tables, the tables as seen inside the open connection's
    transaction, and the log. *)
Record St := mkSt {
  st_db : DB;
  st_pending : DB;
  st_log : list (LogLevel * LogMsg)
}.

Definition M (A : Type) : Type := Env -> St -> (A + PyExc) * St.

Definition ret {A} (a : A) : M A := fun _ s => (inl a, s).

Definition bind {A B} (m : M A) (k : A -> M B) : M B :=
  fun e s => match m e s with
             | (inl a, s') => k a e s'
             | (inr x, s') => (inr x, s')
             end.

Notation "x <- m1 ;; m2" := (bind m1 (fun x => m2))
  (at level 61, m1 at next level, right associativity).
Notation "m1 ;; m2" := (bind m1 (fun _ => m2))
  (at level 61, right associativity).

Definition raise {A} (x : PyExc) : M A := fun _ s => (inr x, s).

(** [try: m except Exception as x: h x]. *)
Definition try_except {A} (m : M A) (h : PyExc -> M A) : M A :=
  fun e s => match m e s with
             | (inr x, s') => h x e s'
             | r => r
             end.

(** [try: m finally: fin]. *)
Definition try_finally {A} (m : M A) (fin : M unit) : M A :=
  fun e s => let (r, s1) := m e s in
             match fin e s1 with
             | (inl _, s2) => (r, s2)
             | (inr x, s2) => (inr x, s2)
             end.

Definition log (l : LogLevel) (msg : LogMsg) : M unit :=
  fun _ s => (inl tt, mkSt (st_db s) (st_pending s) (st_log s ++ [(l, msg)])).

(** [sqlite3.connect(DB_PATH)]: a fresh connection sees the committed
    tables. *)
Definition sql_connect : M unit :=
  fun e s => match env_fault e with
             | FaultConnect => (inr OperationalError, s)
             | _ => (inl tt, mkSt (st_db s) (st_db s) (st_log s))
             end.

(** [cursor.execute(stmt)]: runs inside the open transaction. *)
Definition sql_execute {A} (stmt : Env -> DB -> A * DB) : M A :=
  fun e s => match env_fault e with
             | FaultExecute => (inr OperationalError, s)
             | _ => let (a, d') := stmt e (st_pending s) in
                    (inl a, mkSt (st_db s) d' (st_log s))
             end.

(** [conn.commit()]. *)
Definition sql_commit : M unit :=
  fun e s => match env_fault e with
             | FaultCommit => (inr OperationalError, s)
             | _ => (inl tt, mkSt (st_pending s) (st_pending s) (st_log s))
             end.

(** [conn.close()]: uncommitted changes are rolled back. *)
Definition sql_close : M unit :=
  fun _ s => (inl tt, mkSt (st_db s) (st_db s) (st_log s)).

Definition run {A} (m : M A) (e : Env) (d : DB) : (A + PyExc) * St :=
  m e (mkSt d d []).

(** ** SQL helpers *)

(** [LIMIT n]: a negative limit means no limit. *)
Definition sql_limit {A} (n : Z) (rows : list A) : list A :=
  if n <? 0 then rows else firstn (Z.to_nat n) rows.

(** [ORDER BY id DESC] on [snapshots] (ids are unique). *)
Fixpoint insert_by_id_desc (r : snapshot_row) (l : list snapshot_row)
  : list snapshot_row :=
  match l with
  | [] => [r]
  | r' :: l' =>
      if sn_id r' <=? sn_id r then r :: r' :: l'
      else r' :: insert_by_id_desc r l'
  end.

Definition order_by_id_desc (l : list snapshot_row) : list snapshot_row :=
  fold_right insert_by_id_desc [] l.

Definition max_id (l : list snapshot_row) : Z :=
  fold_right (fun r m => Z.max (sn_id r) m) 0 l.

(** ** Snapshots *)

(** [INSERT INTO snapshots (...) VALUES (...)]: AUTOINCREMENT takes one
    more than the largest of the recorded sequence and the largest id. *)
Definition sql_insert_snapshot (bn tm tv : Z) (sj vj : json_obj)
  : Env -> DB -> unit * DB :=
  fun e d =>
    let id := 1 + Z.max (snapshots_seq d) (max_id (snapshots d)) in
    (tt, set_snapshots (snapshots d ++ [mkSnapshotRow id bn (env_now e) tm tv sj vj])
                       id d).

Definition save_snapshot (block_number : Z) (scores volumes : list (Z * Z))
  : M unit :=
  sql_connect;;
  let scores_json := json_dumps (str_keys scores) in
  let volumes_json := json_dumps (str_keys volumes) in
  sql_execute (sql_insert_snapshot
                 block_number
                 (Z.of_nat (List.length (filter (fun s => 0 <? s) (map snd scores))))
                 (py_sum (map snd volumes))
                 scores_json volumes_json);;
  sql_commit;;
  sql_close;;
  log LInfo (SnapshotSaved block_number);;
  ret tt.

(** The dict returned by [get_latest_snapshot]. *)
Record snapshot_dict := mkSnapshotDict {
  sd_block_number : Z;
  sd_timestamp : Z;
  sd_total_miners : Z;
  sd_total_volume : Z;
  sd_scores : pydict;
  sd_volumes : pydict
}.

(** The dicts returned by [get_snapshots] (summary only). *)
Record snapshot_summary := mkSnapshotSummary {
  ss_block_number : Z;
  ss_timestamp : Z;
  ss_total_miners : Z;
  ss_total_volume : Z
}.

Definition snapshot_to_dict (r : snapshot_row) : snapshot_dict :=
  mkSnapshotDict (sn_block_number r) (sn_timestamp r) (sn_total_miners r)
    (sn_total_volume r) (json_loads (sn_scores_json r))
    (json_loads (sn_volumes_json r)).

Definition snapshot_to_summary (r : snapshot_row) : snapshot_summary :=
  mkSnapshotSummary (sn_block_number r) (sn_timestamp r) (sn_total_miners r)
    (sn_total_volume r).

Definition query {A} (q : DB -> A) : Env -> DB -> A * DB :=
  fun _ d => (q d, d).

Definition get_latest_snapshot : M (option snapshot_dict) :=
  sql_connect;;
  row <- sql_execute (query (fun d =>
           hd_error (sql_limit 1 (order_by_id_desc (snapshots d)))));;
  sql_close;;
  ret (option_map snapshot_to_dict row).

Definition get_snapshots (limit : Z) : M (list snapshot_summary) :=
  sql_connect;;
  rows <- sql_execute (query (fun d =>
            sql_limit limit (order_by_id_desc (snapshots d))));;
  sql_close;;
  ret (map snapshot_to_summary rows).

(** ** Miner data *)

(** [INSERT OR REPLACE INTO miner_data ...]: the row whose [uid] (the
    primary key) conflicts is deleted, then the new row is inserted. *)
Definition sql_replace_miner (r : Z -> miner_row) : Env -> DB -> unit * DB :=
  fun e d =>
    let row := r (env_now e) in
    (tt, set_miner_data
           (filter (fun r' => negb (md_uid r' =? md_uid row)) (miner_data d)
              ++ [row]) d).

Definition update_miner_data (uid : Z) (hotkey coldkey : string)
  (evm_address : option string) (daily_volumes : list Z)
  (weighted_volume score : Z) : M unit :=
  sql_connect;;
  sql_execute (sql_replace_miner (fun now =>
    mkMinerRow uid hotkey coldkey evm_address daily_volumes weighted_volume
      score now));;
  sql_commit;;
  sql_close;;
  ret tt.

(** [get_miner_data]: the dict it returns carries exactly the columns of
    the row ([daily_volumes] decoded from its JSON text), so the row
    stands for it. *)
Definition get_miner_data (uid : Z) : M (option miner_row) :=
  sql_connect;;
  row <- sql_execute (query (fun d =>
           find (fun r => md_uid r =? uid) (miner_data d)));;
  sql_close;;
  ret row.

(** ** Bet event cache *)

(** The columns of [UNIQUE(evm_address, game_id, block_number, side)]. *)
Definition bet_key_eqb (a b : bet_row) : bool :=
  String.eqb (be_evm_address a) (be_evm_address b)
  && (be_game_id a =? be_game_id b)
  && (be_block_number a =? be_block_number b)
  && (be_side a =? be_side b).

(** [INSERT OR IGNORE INTO bet_events ...]. *)
Definition sql_insert_or_ignore_bet (r : bet_row) : Env -> DB -> unit * DB :=
  fun _ d =>
    (tt, if existsb (bet_key_eqb r) (bet_events d) then d
         else set_bet_events (bet_events d ++ [r]) d).

Definition cache_bet_event (evm_address : string) (game_id amount side
  block_number timestamp : Z) : M unit :=
  sql_connect;;
  try_finally
    (try_except
       (sql_execute (sql_insert_or_ignore_bet
          (mkBetRow evm_address game_id amount side block_number timestamp));;
        sql_commit)
       (fun _ => log LDebug BetCacheError))
    sql_close.

(** [int(datetime.utcnow().timestamp())]: [utcnow()] is the UTC wall
    clock as a naive datetime, and [timestamp()] reads a naive datetime as
    local time, which shifts the result by the host's UTC offset. *)
Definition py_utcnow_timestamp : M Z :=
  fun e s => (inl (env_now e - env_utc_offset e), s).

(** [DELETE FROM bet_events WHERE timestamp < ?]; the result is
    [cursor.rowcount]. *)
Definition sql_delete_bets_before (cutoff : Z) : Env -> DB -> Z * DB :=
  fun _ d =>
    (Z.of_nat (List.length (filter (fun r => be_timestamp r <? cutoff)
                                   (bet_events d))),
     set_bet_events (filter (fun r => negb (be_timestamp r <? cutoff))
                            (bet_events d)) d).

Definition cleanup_old_events (days : Z) : M unit :=
  sql_connect;;
  now <- py_utcnow_timestamp;;
  let cutoff := now - days * 86400 in
  deleted <- sql_execute (sql_delete_bets_before cutoff);;
  sql_commit;;
  sql_close;;
  (if 0 <? deleted then log LInfo (CleanedUp deleted) else ret tt);;
  ret tt.

(** ** Wallet mappings *)

(** [INSERT OR REPLACE INTO wallet_mappings ...]: the row whose [coldkey]
    (UNIQUE) conflicts is deleted, then the new row is inserted. *)
Definition sql_replace_wallet (r : Z -> wallet_row) : Env -> DB -> unit * DB :=
  fun e d =>
    let row := r (env_now e) in
    (tt, set_wallet_mappings
           (filter (fun r' => negb (String.eqb (wm_coldkey r') (wm_coldkey row)))
                   (wallet_mappings d) ++ [row]) d).

Definition save_wallet_mapping (coldkey evm_address signature message : string)
  (timestamp : Z) : M bool :=
  sql_connect;;
  try_finally
    (try_except
       (sql_execute (sql_replace_wallet (fun now =>
          mkWalletRow coldkey (py_lower evm_address) signature message
            timestamp now));;
        sql_commit;;
        log LInfo (WalletSaved (substring 0 10 coldkey)
                               (substring 0 10 evm_address));;
        ret true)
       (fun _ => log LError WalletSaveFailed;; ret false))
    sql_close.

(** [get_wallet_mapping]: the dict it returns carries exactly the columns
    of the row, so the row stands for it. *)
Definition get_wallet_mapping (coldkey : string) : M (option wallet_row) :=
  sql_connect;;
  row <- sql_execute (query (fun d =>
           find (fun r => String.eqb (wm_coldkey r) coldkey)
                (wallet_mappings d)));;
  sql_close;;
  ret row.

Definition get_evm_address_for_coldkey (coldkey : string) : M (option string) :=
  mapping <- get_wallet_mapping coldkey;;
  ret (option_map wm_evm_address mapping).

(** ** The other queries and writers of the module *)

(** [ORDER BY key DESC] on a column that may repeat: insertion into a list
    sorted by decreasing key. SQL leaves the order of ties open; the
    properties proved below (sorted, a permutation of the selected rows)
    hold whatever order the engine gives to ties. *)
Fixpoint insert_desc {A} (key : A -> Z) (x : A) (l : list A) : list A :=
  match l with
  | [] => [x]
  | y :: l' => if key y <=? key x then x :: y :: l' else y :: insert_desc key x l'
  end.

Definition order_desc {A} (key : A -> Z) (l : list A) : list A :=
  fold_right (insert_desc key) [] l.

(** [get_snapshot_by_block]: [WHERE block_number = ?] then [fetchone()],
    the first match in the table's rowid order. *)
Definition get_snapshot_by_block (block_number : Z) : M (option snapshot_dict) :=
  sql_connect;;
  row <- sql_execute (query (fun d =>
           find (fun r => sn_block_number r =? block_number) (snapshots d)));;
  sql_close;;
  ret (option_map snapshot_to_dict row).

(** [get_all_miner_data]: every row, [ORDER BY score DESC]. *)
Definition get_all_miner_data : M (list miner_row) :=
  sql_connect;;
  rows <- sql_execute (query (fun d => order_desc md_score (miner_data d)));;
  sql_close;;
  ret rows.

(** The dicts returned by [get_cached_bet_events]. *)
Record bet_event_dict := mkBetEventDict {
  ed_game_id : Z;
  ed_amount : Z;
  ed_side : Z;
  ed_block_number : Z;
  ed_timestamp : Z
}.

Definition bet_to_dict (r : bet_row) : bet_event_dict :=
  mkBetEventDict (be_game_id r) (be_amount r) (be_side r) (be_block_number r)
    (be_timestamp r).

(** [WHERE evm_address = ? AND timestamp >= ?]. *)
Definition bet_selected (evm_address : string) (since : Z) (r : bet_row) : bool :=
  String.eqb (be_evm_address r) evm_address && (since <=? be_timestamp r).

Definition get_cached_bet_events (evm_address : string) (since_timestamp : Z)
  : M (list bet_event_dict) :=
  sql_connect;;
  rows <- sql_execute (query (fun d =>
            order_desc be_timestamp
              (filter (bet_selected evm_address since_timestamp) (bet_events d))));;
  sql_close;;
  ret (map bet_to_dict rows).

(** The dicts returned by [get_all_wallet_mappings]. *)
Record wallet_summary := mkWalletSummary {
  ws_coldkey : string;
  ws_evm_address : string;
  ws_timestamp : Z;
  ws_verified_at : Z
}.

Definition wallet_to_summary (r : wallet_row) : wallet_summary :=
  mkWalletSummary (wm_coldkey r) (wm_evm_address r) (wm_timestamp r)
    (wm_verified_at r).

Definition get_all_wallet_mappings : M (list wallet_summary) :=
  sql_connect;;
  rows <- sql_execute (query (fun d =>
            order_desc wm_verified_at (wallet_mappings d)));;
  sql_close;;
  ret (map wallet_to_summary rows).

(** [DELETE FROM wallet_mappings WHERE coldkey = ?]; the result is
    [cursor.rowcount]. *)
Definition sql_delete_wallet (coldkey : string) : Env -> DB -> Z * DB :=
  fun _ d =>
    (Z.of_nat (List.length (filter (fun r => String.eqb (wm_coldkey r) coldkey)
                                   (wallet_mappings d))),
     set_wallet_mappings
       (filter (fun r => negb (String.eqb (wm_coldkey r) coldkey))
               (wallet_mappings d)) d).

Definition delete_wallet_mapping (coldkey : string) : M bool :=
  sql_connect;;
  n <- sql_execute (sql_delete_wallet coldkey);;
  let deleted := 0 <? n in
  sql_commit;;
  sql_close;;
  ret deleted.

(** ** Sequences of calls *)

(** The uniqueness key of a cached bet event. *)
Definition bet_key (r : bet_row) : string * Z * Z * Z :=
  (be_evm_address r, be_game_id r, be_block_number r, be_side r).

(** [cache_bet_event] called with the fields of a row. *)
Definition cache_bet_row (r : bet_row) : M unit :=
  cache_bet_event (be_evm_address r) (be_game_id r) (be_amount r) (be_side r)
    (be_block_number r) (be_timestamp r).

(** A sequence of [cache_bet_event] calls, each under its own
    environment; a call that raises leaves the store as it is and the
    caller goes on with the next one. *)
Fixpoint cache_events (calls : list (Env * bet_row)) (s : St) : St :=
  match calls with
  | [] => s
  | (e, r) :: rest => cache_events rest (snd (cache_bet_row r e s))
  end.

(** ** Concrete inputs *)

(** Two bets of one address on one game in one block, on opposite sides. *)
Definition bet_a0 : bet_row := mkBetRow "0xabc" 7 5 0 100 1700000000.
Definition bet_a1 : bet_row := mkBetRow "0xabc" 7 5 1 100 1700000000.
Definition st_with_a0 : St :=
  mkSt (mkDB [] 0 [] [bet_a0] []) (mkDB [] 0 [] [bet_a0] []) [].

Definition empty_db : DB := mkDB [] 0 [] [] [].

(** A host in UTC at time [now], with a healthy storage engine. *)
Definition utc_env (now : Z) : Env := mkEnv now 0 NoFault.

Definition bet_at (ts : Z) : bet_row := mkBetRow "0xabc" 7 5 0 100 ts.

Definition db_with_bet (ts : Z) : DB := mkDB [] 0 [] [bet_at ts] [].

(** A populated store: two snapshots, two miners, three cached bets and
    two wallet mappings. *)
Definition snapshots_two : list snapshot_row :=
  [mkSnapshotRow 1 100 1700000000 2 14 [] []; mkSnapshotRow 2 101 1700000360 1 5 [] []].
Definition miners_two : list miner_row :=
  [mkMinerRow 1 "hk1" "ck1" None [] 5 3 1700000000;
   mkMinerRow 2 "hk2" "ck2" (Some "0xabc"%string) [1; 2] 8 7 1700000000].
Definition bets_three : list bet_row :=
  [bet_a0; mkBetRow "0xabc" 8 6 1 101 1700000500; mkBetRow "0xdef" 7 5 0 100 1700000100].
Definition wallets_two : list wallet_row :=
  [mkWalletRow "ckA" "0xaaa" "sA" "mA" 1 1700000000;
   mkWalletRow "ckB" "0xbbb" "sB" "mB" 2 1700000300].
Definition db_full : DB := mkDB snapshots_two 2 miners_two bets_three wallets_two.

(** A fresh connection's view of a committed store, with an empty log. *)
Definition st_of (d : DB) : St := mkSt d d [].

(** A host in UTC whose storage engine faults as given. *)
Definition fault_env (f : Fault) : Env := mkEnv 1700000000 0 f.

(** ** Lemmas: Python values *)

Lemma pykey_eqb_eq (a b : pykey) : pykey_eqb a b = true <-> a = b.
Proof.
  destruct a as [x|x], b as [y|y]; simpl;
    [rewrite Z.eqb_eq | | | rewrite String.eqb_eq];
    split; intro H; try congruence; discriminate.
Qed.

Lemma pykey_eqb_neq (a b : pykey) : pykey_eqb a b = false <-> a <> b.
Proof.
  rewrite <- pykey_eqb_eq. destruct (pykey_eqb a b); split; congruence.
Qed.

Lemma pos_to_uint_not_nil (p : positive) : Pos.to_uint p <> Nil.
Proof.
  intro H. pose proof (DecimalPos.Unsigned.of_to p) as E.
  rewrite H in E. discriminate.
Qed.

(** [str] is injective on [int]: distinct ints print differently. *)
Lemma py_str_int_inj (a b : Z) : py_str_int a = py_str_int b -> a = b.
Proof.
  unfold py_str_int. intro H.
  assert (Hr : forall z, NilZero.int_of_string (NilZero.string_of_int (Z.to_int z))
                         = Some (Z.to_int z)).
  { intro z. apply NilZero.isi; destruct z; simpl; try discriminate;
      intro E; injection E; apply pos_to_uint_not_nil. }
  pose proof (Hr a) as Ha. rewrite H, Hr in Ha. injection Ha as Ha.
  symmetry. now apply DecimalZ.to_int_inj.
Qed.

Lemma dict_set_fresh (k : pykey) (v : Z) (d : pydict) :
  ~ In k (map fst d) -> dict_set k v d = d ++ [(k, v)].
Proof.
  induction d as [|[k' v'] d IH]; simpl; intro Hn; [reflexivity|].
  destruct (pykey_eqb k k') eqn:E.
  - apply pykey_eqb_eq in E. subst. tauto.
  - rewrite IH; tauto.
Qed.

(** Building a dict from pairs whose keys are all distinct and absent
    from the accumulator just appends them in order. *)
Lemma fold_dict_set_fresh {A} (f : A -> pykey) (l : list (A * Z)) (acc : pydict) :
  NoDup (map (fun x => f (fst x)) l) ->
  (forall x, In x l -> ~ In (f (fst x)) (map fst acc)) ->
  fold_left (fun acc '(a, v) => dict_set (f a) v acc) l acc
  = acc ++ map (fun '(a, v) => (f a, v)) l.
Proof.
  revert acc. induction l as [|[a v] l IH]; intros acc Hnd Hfr; simpl.
  - now rewrite app_nil_r.
  - inversion Hnd as [|? ? Hnotin Hnd']; subst.
    rewrite dict_set_fresh by (apply (Hfr (a, v)); now left).
    rewrite IH; [now rewrite <- app_assoc | assumption |].
    intros x Hx. rewrite map_app, in_app_iff. simpl. intros [Hin | [Heq | []]].
    + apply (Hfr x); [now right | assumption].
    + apply Hnotin. rewrite Heq. apply in_map_iff. now exists x.
Qed.

Lemma NoDup_map_inj {A B} (f : A -> B) (l : list A) :
  (forall a b, f a = f b -> a = b) -> NoDup l -> NoDup (map f l).
Proof.
  intros Hinj Hnd. induction Hnd as [|x l Hx Hnd IH]; simpl; constructor; auto.
  intro Hin. apply in_map_iff in Hin as (y & Hy & Hyl).
  apply Hinj in Hy. subst. contradiction.
Qed.

(** The dict read back from a snapshot, for a well-formed [Dict[int, float]]
    (distinct keys): the input's pairs in order, each key in its [str]
    form. *)
Lemma snapshot_dict_readback (d : list (Z * Z)) :
  NoDup (map fst d) ->
  json_loads (json_dumps (str_keys d))
  = map (fun '(k, v) => (KStr (py_str_int k), v)) d.
Proof.
  intro Hnd.
  assert (Hnd' : NoDup (map (fun x => KStr (py_str_int (fst x))) d)).
  { replace (map (fun x => KStr (py_str_int (fst x))) d)
      with (map (fun k => KStr (py_str_int k)) (map fst d))
      by (now rewrite map_map).
    apply NoDup_map_inj; [|assumption].
    intros a b H. injection H. apply py_str_int_inj. }
  unfold str_keys.
  rewrite (fold_dict_set_fresh (fun k => KStr (py_str_int k))) by
    (assumption || (intros x _ []; fail)).
  simpl. unfold json_loads, json_dumps. rewrite map_map.
  replace (map (fun x => let '(k, v) := let '(a, v) := x in
                 (KStr (py_str_int a), v) in (json_key k, v)) d)
    with (map (fun '(a, v) => (py_str_int a, v)) d)
    by (apply map_ext; intros [a v]; reflexivity).
  rewrite (fold_dict_set_fresh KStr).
  - simpl. rewrite map_map. apply map_ext. now intros [a v].
  - rewrite map_map. replace (map (fun x => KStr (fst (let '(a, v) := x in
      (py_str_int a, v)))) d) with (map (fun x => KStr (py_str_int (fst x))) d)
      by (apply map_ext; now intros [a v]).
    assumption.
  - intros x _ [].
Qed.

(** ** Lemmas: the snapshot store *)

Lemma max_id_bound (l : list snapshot_row) :
  Forall (fun x => sn_id x <= max_id l) l.
Proof.
  induction l as [|a l IH]; constructor; simpl; [lia|].
  eapply Forall_impl; [|exact IH]. intros x Hx. simpl in Hx. lia.
Qed.

(** A row whose id exceeds every other comes first under
    [ORDER BY id DESC]. *)
Lemma order_by_id_desc_app_max (l : list snapshot_row) (r : snapshot_row) :
  Forall (fun x => sn_id x < sn_id r) l ->
  order_by_id_desc (l ++ [r]) = r :: order_by_id_desc l.
Proof.
  induction l as [|a l IH]; intro Hl; [reflexivity|].
  inversion Hl as [|? ? Ha Hl']; subst.
  unfold order_by_id_desc in *. simpl. rewrite IH by assumption. simpl.
  destruct (sn_id r <=? sn_id a) eqn:E; [apply Z.leb_le in E; lia|reflexivity].
Qed.

(** The row appended by [sql_insert_snapshot] is the first under
    [ORDER BY id DESC]. *)
Lemma order_after_insert_snapshot (e : Env) (d : DB) bn tm tv sj vj :
  order_by_id_desc (snapshots (snd (sql_insert_snapshot bn tm tv sj vj e d)))
  = mkSnapshotRow (1 + Z.max (snapshots_seq d) (max_id (snapshots d)))
      bn (env_now e) tm tv sj vj
    :: order_by_id_desc (snapshots d).
Proof.
  unfold sql_insert_snapshot, set_snapshots; cbn [snd snapshots].
  apply order_by_id_desc_app_max.
  eapply Forall_impl; [|apply max_id_bound]. intros x Hx. cbn [sn_id] in *. lia.
Qed.

(** [save_snapshot] without a storage fault: one row appended and
    committed, one info line logged. *)
Lemma save_snapshot_ok (e : Env) (s : St) bn scores volumes :
  env_fault e = NoFault ->
  save_snapshot bn scores volumes e s
  = (inl tt,
     let d' := snd (sql_insert_snapshot bn
                      (Z.of_nat (List.length (filter (fun v => 0 <? v) (map snd scores))))
                      (py_sum (map snd volumes))
                      (json_dumps (str_keys scores)) (json_dumps (str_keys volumes))
                      e (st_db s)) in
     mkSt d' d' (st_log s ++ [(LInfo, SnapshotSaved bn)])).
Proof.
  destruct e as [now off f]; simpl; intros ->. reflexivity.
Qed.

Lemma get_latest_snapshot_ok (e : Env) (s : St) :
  env_fault e = NoFault ->
  get_latest_snapshot e s
  = (inl (option_map snapshot_to_dict
            (hd_error (sql_limit 1 (order_by_id_desc (snapshots (st_db s)))))),
     mkSt (st_db s) (st_db s) (st_log s)).
Proof.
  destruct e as [now off f]; simpl; intros ->. reflexivity.
Qed.

Lemma get_snapshots_ok (e : Env) (s : St) (limit : Z) :
  env_fault e = NoFault ->
  get_snapshots limit e s
  = (inl (map snapshot_to_summary
            (sql_limit limit (order_by_id_desc (snapshots (st_db s))))),
     mkSt (st_db s) (st_db s) (st_log s)).
Proof.
  destruct e as [now off f]; simpl; intros ->. reflexivity.
Qed.

Lemma dict_get_str_keys (l : list (Z * Z)) (K v : Z) :
  NoDup (map fst l) -> In (K, v) l ->
  dict_get (KStr (py_str_int K)) (map (fun '(k, w) => (KStr (py_str_int k), w)) l)
  = Some v.
Proof.
  induction l as [|[k w] l IH]; simpl; [tauto|].
  intros Hnd Hin. inversion Hnd as [|? ? Hk Hnd']; subst.
  destruct (String.eqb (py_str_int K) (py_str_int k)) eqn:E.
  - apply String.eqb_eq, py_str_int_inj in E. subst k.
    destruct Hin as [Hin | Hin]; [congruence|].
    exfalso. apply Hk. apply in_map_iff. now exists (K, v).
  - destruct Hin as [Hin | Hin]; [|now apply IH].
    injection Hin as <- <-. now rewrite String.eqb_refl in E.
Qed.

Lemma dict_get_int_str_keys (l : list (Z * Z)) (K : Z) :
  dict_get (KInt K) (map (fun '(k, w) => (KStr (py_str_int k), w)) l) = None.
Proof. induction l as [|[k w] l IH]; simpl; auto. Qed.

(** ** Claims about the snapshot store *)

(** C1: right after a successful [save_snapshot(block_number, scores,
    volumes)], [get_latest_snapshot()] returns the record just written:
    its [total_miners] is the number of entries of [scores] whose value is
    strictly positive, and its [total_volume] is [sum(volumes.values())]. *)
Theorem save_snapshot_then_get_latest (e1 e2 : Env) (d : DB) (bn : Z)
  (scores volumes : list (Z * Z)) :
  env_fault e1 = NoFault -> env_fault e2 = NoFault ->
  fst (run (save_snapshot bn scores volumes) e1 d) = inl tt /\
  fst (get_latest_snapshot e2 (snd (run (save_snapshot bn scores volumes) e1 d)))
  = inl (Some (mkSnapshotDict bn (env_now e1)
       (Z.of_nat (List.length (filter (fun v => 0 <? v) (map snd scores))))
       (py_sum (map snd volumes))
       (json_loads (json_dumps (str_keys scores)))
       (json_loads (json_dumps (str_keys volumes))))).
Proof.
  intros H1 H2. unfold run. rewrite save_snapshot_ok by assumption.
  split; [reflexivity|]. cbn [fst snd].
  rewrite get_latest_snapshot_ok by assumption. cbn [fst st_db].
  rewrite order_after_insert_snapshot. reflexivity.
Qed.

(** C7: recency is insertion order: after two successful snapshot writes
    with the same block number, [get_snapshots(1)] lists the second one
    and [get_latest_snapshot()] returns the second one. *)
Theorem snapshot_recency_is_insertion_order (e1 e2 e3 : Env) (d : DB)
  (sc1 vo1 sc2 vo2 : list (Z * Z)) :
  env_fault e1 = NoFault -> env_fault e2 = NoFault -> env_fault e3 = NoFault ->
  let s2 := snd (save_snapshot 100 sc2 vo2 e2
                   (snd (run (save_snapshot 100 sc1 vo1) e1 d))) in
  fst (get_snapshots 1 e3 s2)
  = inl [mkSnapshotSummary 100 (env_now e2)
           (Z.of_nat (List.length (filter (fun v => 0 <? v) (map snd sc2))))
           (py_sum (map snd vo2))] /\
  fst (get_latest_snapshot e3 s2)
  = inl (Some (mkSnapshotDict 100 (env_now e2)
           (Z.of_nat (List.length (filter (fun v => 0 <? v) (map snd sc2))))
           (py_sum (map snd vo2))
           (json_loads (json_dumps (str_keys sc2)))
           (json_loads (json_dumps (str_keys vo2))))).
Proof.
  intros H1 H2 H3 s2. unfold s2, run.
  rewrite save_snapshot_ok by assumption. cbn [snd].
  rewrite save_snapshot_ok by assumption. cbn [snd].
  rewrite get_snapshots_ok, get_latest_snapshot_ok by assumption.
  cbn [fst st_db]. rewrite order_after_insert_snapshot.
  split; reflexivity.
Qed.

(** C6 (counterexample): a snapshot saved with scores [{5: 1}] reads back
    with no entry under the int key [5]: the keys come back as strings. *)
Lemma snapshot_int_key_not_read_back :
  match fst (get_latest_snapshot (mkEnv 1700000000 0 NoFault)
               (snd (run (save_snapshot 100 [(5, 1)] [(5, 2)])
                         (mkEnv 1700000000 0 NoFault) (mkDB [] 0 [] [] []))))
  with
  | inl (Some r) =>
      dict_get (KInt 5) (sd_scores r) = None /\
      dict_get (KInt 5) (sd_volumes r) = None /\
      dict_get (KStr "5"%string) (sd_scores r) = Some 1
  | _ => False
  end.
Proof. vm_compute. repeat split. Qed.

(** C6 (amended): for a successful snapshot write with [Dict[int, float]]
    inputs, every key [K] of [scores] (resp. [volumes]) reads back under
    [str(K)] with its value, and no int key reads back at all. *)
Theorem snapshot_roundtrip_under_str_key (e1 e2 : Env) (d : DB) (bn : Z)
  (scores volumes : list (Z * Z)) :
  env_fault e1 = NoFault -> env_fault e2 = NoFault ->
  NoDup (map fst scores) -> NoDup (map fst volumes) ->
  exists r,
    fst (get_latest_snapshot e2 (snd (run (save_snapshot bn scores volumes) e1 d)))
    = inl (Some r) /\
    (forall K v, In (K, v) scores -> dict_get (KStr (py_str_int K)) (sd_scores r) = Some v) /\
    (forall K v, In (K, v) volumes -> dict_get (KStr (py_str_int K)) (sd_volumes r) = Some v) /\
    (forall K, dict_get (KInt K) (sd_scores r) = None /\
               dict_get (KInt K) (sd_volumes r) = None).
Proof.
  intros H1 H2 Hs Hv. unfold run. rewrite save_snapshot_ok by assumption.
  cbn [snd]. rewrite get_latest_snapshot_ok by assumption. cbn [fst st_db].
  rewrite order_after_insert_snapshot.
  eexists. split; [reflexivity|].
  cbn [snapshot_to_dict sd_scores sd_volumes sn_scores_json sn_volumes_json].
  rewrite !snapshot_dict_readback by assumption.
  split; [|split]; intros; [now apply dict_get_str_keys .. |].
  split; apply dict_get_int_str_keys.
Qed.

(** ** Lemmas: the bet event cache *)

Lemma bet_key_eqb_eq (a b : bet_row) : bet_key_eqb a b = true <-> bet_key a = bet_key b.
Proof.
  destruct a as [a1 a2 a3 a4 a5 a6], b as [b1 b2 b3 b4 b5 b6].
  unfold bet_key_eqb, bet_key; simpl.
  rewrite !andb_true_iff, String.eqb_eq, !Z.eqb_eq.
  split; [intros [[[-> ->] ->] ->]; reflexivity|].
  intro H; injection H; auto.
Qed.

Lemma existsb_bet_key (r : bet_row) (l : list bet_row) :
  existsb (bet_key_eqb r) l = true <-> In (bet_key r) (map bet_key l).
Proof.
  rewrite existsb_exists, in_map_iff. split.
  - intros (x & Hx & E). apply bet_key_eqb_eq in E. exists x. auto.
  - intros (x & E & Hx). exists x. split; [assumption|]. now apply bet_key_eqb_eq.
Qed.

(** One [cache_bet_event] call, by where the storage engine faults. *)
Lemma cache_bet_row_run (r : bet_row) (e : Env) (s : St) :
  cache_bet_row r e s =
  match env_fault e with
  | FaultConnect => (inr OperationalError, s)
  | NoFault =>
      let d' := if existsb (bet_key_eqb r) (bet_events (st_db s)) then st_db s
                else set_bet_events (bet_events (st_db s) ++ [r]) (st_db s) in
      (inl tt, mkSt d' d' (st_log s))
  | FaultExecute | FaultCommit =>
      (inl tt, mkSt (st_db s) (st_db s) (st_log s ++ [(LDebug, BetCacheError)]))
  end.
Proof.
  destruct r as [a g am sd b ts]. destruct e as [n o []]; reflexivity.
Qed.

(** A call whose key is already cached leaves the store as it is. *)
Lemma cache_bet_row_present (r : bet_row) (e : Env) (s : St) :
  In (bet_key r) (map bet_key (bet_events (st_db s))) ->
  st_db (snd (cache_bet_row r e s)) = st_db s.
Proof.
  intro Hin. apply existsb_bet_key in Hin.
  rewrite cache_bet_row_run. destruct (env_fault e); simpl; try rewrite Hin; reflexivity.
Qed.

(** Every call keeps the cached keys pairwise distinct. *)
Lemma cache_bet_row_unique (r : bet_row) (e : Env) (s : St) :
  NoDup (map bet_key (bet_events (st_db s))) ->
  NoDup (map bet_key (bet_events (st_db (snd (cache_bet_row r e s))))).
Proof.
  intro Hnd. rewrite cache_bet_row_run.
  destruct (env_fault e); simpl; try assumption.
  destruct (existsb (bet_key_eqb r) (bet_events (st_db s))) eqn:E; simpl;
    [assumption|].
  rewrite map_app. simpl. apply NoDup_app; [assumption|repeat constructor; auto|].
  intros k Hk [Hk' | []]. subst k.
  assert (existsb (bet_key_eqb r) (bet_events (st_db s)) = true) by
    now apply existsb_bet_key.
  congruence.
Qed.

(** ** Claims about the bet event cache *)

(** C2: over any sequence of [cache_bet_event] calls the cache never
    holds two rows with the same (evm_address, game_id, block_number,
    side); a call whose tuple is already cached adds no row and raises
    nothing (it raises only when the connection itself cannot be opened,
    whatever the tuple); a call whose tuple is not cached, e.g. one that
    differs from a cached row only in [side], adds a row. *)
Theorem cache_bet_event_dedup :
  (forall calls s,
     NoDup (map bet_key (bet_events (st_db s))) ->
     NoDup (map bet_key (bet_events (st_db (cache_events calls s))))) /\
  (forall r e s,
     In (bet_key r) (map bet_key (bet_events (st_db s))) ->
     fst (cache_bet_row r e s)
     = match env_fault e with
       | FaultConnect => inr OperationalError
       | _ => inl tt
       end /\
     st_db (snd (cache_bet_row r e s)) = st_db s) /\
  (forall r e s,
     env_fault e = NoFault ->
     ~ In (bet_key r) (map bet_key (bet_events (st_db s))) ->
     fst (cache_bet_row r e s) = inl tt /\
     bet_events (st_db (snd (cache_bet_row r e s))) = bet_events (st_db s) ++ [r]).
Proof.
  split; [|split].
  - intro calls. induction calls as [|[e r] calls IH]; intros s Hnd; simpl;
      [assumption|].
    apply IH, cache_bet_row_unique, Hnd.
  - intros r e s Hin. split; [|now apply cache_bet_row_present].
    rewrite cache_bet_row_run. destruct (env_fault e); reflexivity.
  - intros r e s Hf Hn. rewrite cache_bet_row_run, Hf. simpl.
    destruct (existsb (bet_key_eqb r) (bet_events (st_db s))) eqn:E.
    + apply existsb_bet_key in E. contradiction.
    + split; reflexivity.
Qed.

Lemma cache_bet_event_dedup_witness :
  NoDup (map bet_key (bet_events (st_db st_with_a0))) /\
  NoDup (map bet_key (bet_events (st_db
    (cache_events [(mkEnv 1700000000 0 NoFault, bet_a0);
                   (mkEnv 1700000001 0 NoFault, bet_a1);
                   (mkEnv 1700000002 0 NoFault, bet_a1)] st_with_a0)))) /\
  st_db (snd (cache_bet_row bet_a0 (mkEnv 1700000000 0 NoFault) st_with_a0))
  = st_db st_with_a0 /\
  bet_events (st_db (snd (cache_bet_row bet_a1 (mkEnv 1700000000 0 NoFault)
                            st_with_a0)))
  = [bet_a0; bet_a1].
Proof.
  destruct cache_bet_event_dedup as [P1 [P2 P3]].
  assert (H0 : NoDup (map bet_key (bet_events (st_db st_with_a0))))
    by (repeat constructor; simpl; tauto).
  split; [exact H0|]. split; [apply P1, H0|]. split.
  - apply (P2 bet_a0 (mkEnv 1700000000 0 NoFault) st_with_a0). simpl. now left.
  - apply (P3 bet_a1 (mkEnv 1700000000 0 NoFault) st_with_a0); [reflexivity|].
    simpl. intros [H | []]. discriminate.
Defined.

(** C10: first writer wins on the non-key fields: once an event is cached,
    a later call with the same (evm_address, game_id, block_number, side)
    but another amount or timestamp leaves the cached row, with its first
    amount and timestamp, as it was. *)
Theorem cache_bet_event_first_writer_wins (e1 e2 : Env) (s : St) (r r' : bet_row) :
  env_fault e1 = NoFault ->
  ~ In (bet_key r) (map bet_key (bet_events (st_db s))) ->
  bet_key r' = bet_key r ->
  bet_events (st_db (snd (cache_bet_row r' e2 (snd (cache_bet_row r e1 s)))))
  = bet_events (st_db s) ++ [r].
Proof.
  intros Hf Hn Hk.
  assert (H1 : bet_events (st_db (snd (cache_bet_row r e1 s)))
               = bet_events (st_db s) ++ [r]).
  { rewrite cache_bet_row_run, Hf. simpl.
    destruct (existsb (bet_key_eqb r) (bet_events (st_db s))) eqn:E;
      [apply existsb_bet_key in E; contradiction | reflexivity]. }
  rewrite cache_bet_row_present; [exact H1|].
  rewrite H1, Hk, map_app, in_app_iff. right. now left.
Qed.

Lemma cache_bet_event_first_writer_wins_witness :
  bet_events (st_db (snd (cache_bet_row (mkBetRow "0xabc" 7 9 0 100 1700000500)
     (mkEnv 1700000500 0 NoFault)
     (snd (cache_bet_row bet_a0 (mkEnv 1700000000 0 NoFault)
             (mkSt (mkDB [] 0 [] [] []) (mkDB [] 0 [] [] []) []))))))
  = [bet_a0].
Proof.
  apply (cache_bet_event_first_writer_wins (mkEnv 1700000000 0 NoFault)
           (mkEnv 1700000500 0 NoFault)
           (mkSt (mkDB [] 0 [] [] []) (mkDB [] 0 [] [] []) []) bet_a0
           (mkBetRow "0xabc" 7 9 0 100 1700000500));
    [reflexivity | simpl; tauto | reflexivity].
Defined.

(** ** Lemmas: replace-on-write tables *)

Lemma filter_keeps_none {A} (p : A -> bool) (l : list A) :
  filter p (filter (fun x => negb (p x)) l) = [].
Proof.
  induction l as [|a l IH]; simpl; [reflexivity|].
  destruct (p a) eqn:E; simpl; [exact IH|]. rewrite E. exact IH.
Qed.

Lemma find_filter_negb_app {A} (p : A -> bool) (l : list A) (x : A) :
  p x = true -> find p (filter (fun y => negb (p y)) l ++ [x]) = Some x.
Proof.
  intro Hx. induction l as [|a l IH]; simpl; [now rewrite Hx|].
  destruct (p a) eqn:E; simpl; [exact IH|]. rewrite E. exact IH.
Qed.

(** Keeping some rows keeps the keys distinct. *)
Lemma NoDup_map_filter {A B} (key : A -> B) (keep : A -> bool) (rows : list A) :
  NoDup (map key rows) -> NoDup (map key (filter keep rows)).
Proof.
  induction rows as [|a l IH]; simpl; intro Hnd; [constructor|].
  inversion Hnd as [|? ? Ha Hnd']; subst.
  destruct (keep a); simpl; [|now apply IH].
  constructor; [|now apply IH].
  intro Hin. apply Ha. apply in_map_iff in Hin as (y & Hy & Hyl).
  apply filter_In in Hyl as [Hyl _]. apply in_map_iff. now exists y.
Qed.

(** Deleting the rows with the key of [x] and appending [x] keeps the
    keys pairwise distinct. *)
Lemma NoDup_replace {A B} (f : A -> B) (eqb : B -> B -> bool)
  (Heqb : forall a b, eqb a b = true <-> a = b) (l : list A) (x : A) :
  NoDup (map f l) ->
  NoDup (map f (filter (fun y => negb (eqb (f y) (f x))) l ++ [x])).
Proof.
  intro Hnd. rewrite map_app. apply NoDup_app.
  - now apply NoDup_map_filter.
  - repeat constructor; auto.
  - intros k Hk [Hk' | []]. subst k.
    apply in_map_iff in Hk as (y & Hy & Hyl).
    apply filter_In in Hyl as [_ Hyl].
    assert (eqb (f y) (f x) = true) by now apply Heqb.
    rewrite H in Hyl. discriminate.
Qed.

Lemma update_miner_data_ok (e : Env) (s : St) uid hk ck ev dv wv sc :
  env_fault e = NoFault ->
  update_miner_data uid hk ck ev dv wv sc e s
  = (inl tt,
     let d' := snd (sql_replace_miner (fun now =>
                 mkMinerRow uid hk ck ev dv wv sc now) e (st_db s)) in
     mkSt d' d' (st_log s)).
Proof. destruct e as [n o f]; simpl; intros ->; reflexivity. Qed.

(** A faulting [update_miner_data] commits nothing. *)
Lemma update_miner_data_fault (e : Env) (s : St) uid hk ck ev dv wv sc :
  env_fault e <> NoFault ->
  fst (update_miner_data uid hk ck ev dv wv sc e s) = inr OperationalError /\
  st_db (snd (update_miner_data uid hk ck ev dv wv sc e s)) = st_db s.
Proof.
  destruct e as [n o []]; simpl; intro H; [congruence|..]; split; reflexivity.
Qed.

Lemma get_miner_data_ok (e : Env) (s : St) (uid : Z) :
  env_fault e = NoFault ->
  get_miner_data uid e s
  = (inl (find (fun r => md_uid r =? uid) (miner_data (st_db s))),
     mkSt (st_db s) (st_db s) (st_log s)).
Proof. destruct e as [n o f]; simpl; intros ->; reflexivity. Qed.

Lemma save_wallet_mapping_ok (e : Env) (s : St) ck ev sg msg ts :
  env_fault e = NoFault ->
  save_wallet_mapping ck ev sg msg ts e s
  = (inl true,
     let d' := snd (sql_replace_wallet (fun now =>
                 mkWalletRow ck (py_lower ev) sg msg ts now) e (st_db s)) in
     mkSt d' d' (st_log s ++ [(LInfo, WalletSaved (substring 0 10 ck)
                                                  (substring 0 10 ev))])).
Proof. destruct e as [n o f]; simpl; intros ->; reflexivity. Qed.

Lemma get_wallet_mapping_ok (e : Env) (s : St) (ck : string) :
  env_fault e = NoFault ->
  get_wallet_mapping ck e s
  = (inl (find (fun r => String.eqb (wm_coldkey r) ck) (wallet_mappings (st_db s))),
     mkSt (st_db s) (st_db s) (st_log s)).
Proof. destruct e as [n o f]; simpl; intros ->; reflexivity. Qed.

Lemma ascii_lower_idem (c : ascii) : ascii_lower (ascii_lower c) = ascii_lower c.
Proof.
  unfold ascii_lower.
  destruct ((65 <=? nat_of_ascii c)%nat && (nat_of_ascii c <=? 90)%nat) eqn:E.
  - apply andb_true_iff in E as [E1 E2].
    apply Nat.leb_le in E1, E2.
    rewrite nat_ascii_embedding by lia.
    replace ((65 <=? nat_of_ascii c + 32)%nat && (nat_of_ascii c + 32 <=? 90)%nat)
      with false; [reflexivity|].
    symmetry. apply andb_false_iff. right. apply Nat.leb_gt. lia.
  - now rewrite E.
Qed.

Lemma py_lower_idem (s : string) : py_lower (py_lower s) = py_lower s.
Proof. induction s as [|c s IH]; simpl; [reflexivity|]. now rewrite ascii_lower_idem, IH. Qed.

(** ** Claims about miner data and wallet mappings *)

(** C3: [miner_data] never holds two rows with one [uid] (every
    [update_miner_data], faulting or not, keeps the uids distinct), and a
    second successful [update_miner_data] for a [uid] leaves exactly one
    row for it, made of the second call's values only, with
    [last_updated] the time of the second write; [get_miner_data] returns
    that row. *)
Theorem update_miner_data_full_replace :
  (forall e s uid hk ck ev dv wv sc,
     NoDup (map md_uid (miner_data (st_db s))) ->
     NoDup (map md_uid (miner_data (st_db
       (snd (update_miner_data uid hk ck ev dv wv sc e s)))))) /\
  (forall e1 e2 e3 d uid hk1 ck1 ev1 dv1 wv1 sc1 hk2 ck2 ev2 dv2 wv2 sc2,
     env_fault e1 = NoFault -> env_fault e2 = NoFault -> env_fault e3 = NoFault ->
     let s2 := snd (update_miner_data uid hk2 ck2 ev2 dv2 wv2 sc2 e2
                      (snd (run (update_miner_data uid hk1 ck1 ev1 dv1 wv1 sc1) e1 d))) in
     filter (fun r => md_uid r =? uid) (miner_data (st_db s2))
     = [mkMinerRow uid hk2 ck2 ev2 dv2 wv2 sc2 (env_now e2)] /\
     fst (get_miner_data uid e3 s2)
     = inl (Some (mkMinerRow uid hk2 ck2 ev2 dv2 wv2 sc2 (env_now e2)))).
Proof.
  split.
  - intros e s uid hk ck ev dv wv sc Hnd.
    destruct (env_fault e) eqn:Hf;
      [| rewrite (proj2 (update_miner_data_fault e s uid hk ck ev dv wv sc
                           ltac:(congruence))); exact Hnd ..].
    rewrite update_miner_data_ok by assumption.
    unfold sql_replace_miner. cbn [snd st_db miner_data set_miner_data].
    apply (NoDup_replace md_uid Z.eqb Z.eqb_eq). exact Hnd.
  - intros e1 e2 e3 d uid hk1 ck1 ev1 dv1 wv1 sc1 hk2 ck2 ev2 dv2 wv2 sc2
      H1 H2 H3 s2. unfold s2, run.
    rewrite update_miner_data_ok by assumption. cbn [snd].
    rewrite update_miner_data_ok by assumption. cbn [snd].
    rewrite get_miner_data_ok by assumption. cbn [fst].
    unfold sql_replace_miner. cbn [snd st_db miner_data set_miner_data md_uid].
    split.
    + rewrite filter_app.
      rewrite (filter_keeps_none (fun r => md_uid r =? uid)).
      simpl. now rewrite Z.eqb_refl.
    + f_equal. apply (find_filter_negb_app (fun r => md_uid r =? uid)).
      simpl. apply Z.eqb_refl.
Qed.

(** C4: [save_wallet_mapping] stores the EVM address in lowercase: after a
    successful save, [get_wallet_mapping] and [get_evm_address_for_coldkey]
    return [evm_address.lower()], which is itself in lowercase. *)
Theorem save_wallet_mapping_lowercases (e1 e2 : Env) (d : DB)
  (ck ev sg msg : string) (ts : Z) :
  env_fault e1 = NoFault -> env_fault e2 = NoFault ->
  let s1 := snd (run (save_wallet_mapping ck ev sg msg ts) e1 d) in
  fst (run (save_wallet_mapping ck ev sg msg ts) e1 d) = inl true /\
  fst (get_wallet_mapping ck e2 s1)
  = inl (Some (mkWalletRow ck (py_lower ev) sg msg ts (env_now e1))) /\
  fst (get_evm_address_for_coldkey ck e2 s1) = inl (Some (py_lower ev)) /\
  py_lower (py_lower ev) = py_lower ev.
Proof.
  intros H1 H2 s1. unfold s1, run.
  rewrite save_wallet_mapping_ok by assumption. cbn [fst snd].
  assert (Hfind : find (fun r => String.eqb (wm_coldkey r) ck)
    (wallet_mappings (snd (sql_replace_wallet (fun now =>
        mkWalletRow ck (py_lower ev) sg msg ts now) e1 d)))
    = Some (mkWalletRow ck (py_lower ev) sg msg ts (env_now e1))).
  { unfold sql_replace_wallet. cbn [snd wallet_mappings set_wallet_mappings wm_coldkey].
    apply (find_filter_negb_app (fun r => String.eqb (wm_coldkey r) ck)).
    simpl. apply String.eqb_refl. }
  split; [reflexivity|]. split; [|split; [|apply py_lower_idem]].
  - rewrite get_wallet_mapping_ok by assumption. cbn [fst st_db].
    now rewrite Hfind.
  - unfold get_evm_address_for_coldkey, bind at 1.
    rewrite get_wallet_mapping_ok by assumption. cbn [st_db].
    rewrite Hfind. reflexivity.
Qed.

(** ** Lemmas: the retention sweep *)

Lemma cleanup_old_events_ok (e : Env) (s : St) (days : Z) :
  env_fault e = NoFault ->
  cleanup_old_events days e s
  = (inl tt,
     let cutoff := env_now e - env_utc_offset e - days * 86400 in
     let d' := snd (sql_delete_bets_before cutoff e (st_db s)) in
     let deleted := fst (sql_delete_bets_before cutoff e (st_db s)) in
     mkSt d' d' (st_log s ++ if 0 <? deleted then [(LInfo, CleanedUp deleted)]
                             else [])).
Proof.
  destruct e as [n o f]; simpl; intros ->.
  unfold cleanup_old_events, bind, ret, log, sql_connect, sql_execute,
    sql_commit, sql_close, py_utcnow_timestamp, sql_delete_bets_before.
  simpl.
  destruct (0 <? Z.of_nat (List.length (filter (fun r => be_timestamp r <? n - o - days * 86400)
                                          (bet_events (st_db s)))));
    simpl; [reflexivity | now rewrite app_nil_r].
Qed.

Lemma filter_not_before (c : Z) (l : list bet_row) :
  filter (fun r => negb (be_timestamp r <? c)) l
  = filter (fun r => c <=? be_timestamp r) l.
Proof. apply filter_ext. intro r. now rewrite Z.leb_antisym. Qed.

Lemma filter_all_true {A} (p : A -> bool) (l : list A) :
  (forall x, In x l -> p x = true) -> filter p l = l.
Proof.
  induction l as [|a l IH]; simpl; intro H; [reflexivity|].
  rewrite H by now left. f_equal. apply IH. intros x Hx. apply H. now right.
Qed.

Lemma filter_length_split {A} (p : A -> bool) (l : list A) :
  (List.length (filter p l) + List.length (filter (fun x => negb (p x)) l))%nat
  = List.length l.
Proof.
  induction l as [|a l IH]; simpl; [reflexivity|].
  destruct (p a); simpl; lia.
Qed.

(** ** Claims about the retention sweep *)

(** C5 (counterexample): a second sweep one second after the first
    removes the event sitting exactly at the first cutoff; and on a host at
    UTC+2 an event one second older than [now - 14 * 86400] survives the
    sweep. *)
Lemma cleanup_second_run_and_utc_offset :
  List.length (bet_events (st_db (snd (run (cleanup_old_events 14)
    (utc_env 1700000000) (db_with_bet (1700000000 - 14 * 86400)))))) = 1%nat /\
  List.length (bet_events (st_db (snd (cleanup_old_events 14 (utc_env 1700000001)
    (snd (run (cleanup_old_events 14) (utc_env 1700000000)
              (db_with_bet (1700000000 - 14 * 86400)))))))) = 0%nat /\
  List.length (bet_events (st_db (snd (run (cleanup_old_events 14)
    (mkEnv 1700000000 7200 NoFault) (db_with_bet (1700000000 - 14 * 86400 - 1))))))
  = 1%nat.
Proof. vm_compute. repeat split. Qed.

(** C5 (amended): on a host whose local time zone is UTC, a successful
    [cleanup_old_events(14)] at Unix second [now] deletes exactly the
    events with [timestamp < now - 14 * 86400] and keeps the others in
    order; a second successful sweep at second [now'] deletes exactly the
    remaining events with [timestamp < now' - 14 * 86400], hence nothing
    when [now' <= now]. *)
Theorem cleanup_old_events_utc_host (e e' : Env) (d : DB) :
  env_fault e = NoFault -> env_utc_offset e = 0 ->
  env_fault e' = NoFault -> env_utc_offset e' = 0 ->
  let s1 := snd (run (cleanup_old_events 14) e d) in
  let s2 := snd (cleanup_old_events 14 e' s1) in
  bet_events (st_db s1)
  = filter (fun r => env_now e - 14 * 86400 <=? be_timestamp r) (bet_events d) /\
  bet_events (st_db s2)
  = filter (fun r => env_now e' - 14 * 86400 <=? be_timestamp r)
           (bet_events (st_db s1)) /\
  (env_now e' <= env_now e -> bet_events (st_db s2) = bet_events (st_db s1)).
Proof.
  intros Hf Ho Hf' Ho' s1 s2.
  assert (E1 : bet_events (st_db s1)
               = filter (fun r => env_now e - 14 * 86400 <=? be_timestamp r)
                        (bet_events d)).
  { unfold s1, run. rewrite cleanup_old_events_ok by assumption.
    cbn [snd st_db]. unfold sql_delete_bets_before.
    cbn [snd bet_events set_bet_events]. rewrite Ho, Z.sub_0_r.
    apply filter_not_before. }
  assert (E2 : bet_events (st_db s2)
               = filter (fun r => env_now e' - 14 * 86400 <=? be_timestamp r)
                        (bet_events (st_db s1))).
  { unfold s2. rewrite cleanup_old_events_ok by assumption.
    cbn [snd st_db]. unfold sql_delete_bets_before.
    cbn [snd bet_events set_bet_events]. rewrite Ho', Z.sub_0_r.
    apply filter_not_before. }
  split; [exact E1|]. split; [exact E2|].
  intro Hle. rewrite E2. apply filter_all_true. intros x Hx.
  rewrite E1 in Hx. apply filter_In in Hx as [_ Hx].
  apply Z.leb_le in Hx. apply Z.leb_le. lia.
Qed.

(** C9 (counterexample): [cleanup_old_events] returns [None] whether it
    removed one event or none, so its result does not carry the count. *)
Lemma cleanup_returns_none_whatever_removed :
  fst (run (cleanup_old_events 14) (utc_env 1700000000) (db_with_bet 1600000000))
  = inl tt /\
  List.length (bet_events (st_db (snd (run (cleanup_old_events 14)
    (utc_env 1700000000) (db_with_bet 1600000000))))) = 0%nat /\
  fst (run (cleanup_old_events 14) (utc_env 1700000000) (db_with_bet 1700000000))
  = inl tt /\
  List.length (bet_events (st_db (snd (run (cleanup_old_events 14)
    (utc_env 1700000000) (db_with_bet 1700000000))))) = 1%nat.
Proof. vm_compute. repeat split. Qed.

(** C9 (amended): a successful [cleanup_old_events(days)] returns [None];
    the number of events it removed is reported only through one info log
    line, written when that number is positive; a run that removes nothing
    logs nothing. *)
Theorem cleanup_old_events_logs_count (e : Env) (d : DB) (days : Z) :
  env_fault e = NoFault ->
  let s1 := snd (run (cleanup_old_events days) e d) in
  let removed := Z.of_nat (List.length (bet_events d)
                           - List.length (bet_events (st_db s1))) in
  fst (run (cleanup_old_events days) e d) = inl tt /\
  st_log s1 = (if 0 <? removed then [(LInfo, CleanedUp removed)] else []).
Proof.
  intros Hf s1 removed.
  assert (Hr : removed = fst (sql_delete_bets_before
                 (env_now e - env_utc_offset e - days * 86400) e d)).
  { unfold removed, s1, run. rewrite cleanup_old_events_ok by assumption.
    cbn [snd st_db]. unfold sql_delete_bets_before.
    cbn [fst snd bet_events set_bet_events]. f_equal.
    pose proof (filter_length_split
      (fun r => be_timestamp r <? env_now e - env_utc_offset e - days * 86400)
      (bet_events d)). lia. }
  unfold s1 in *. unfold run in *. rewrite cleanup_old_events_ok in * by assumption.
  split; [reflexivity|]. cbn [snd st_log]. rewrite Hr. reflexivity.
Qed.

(** ** Wallet mapping faults *)

(** C8 (code bug): [save_wallet_mapping] opens its connection before its
    [try] block, so a fault while connecting escapes as an exception
    instead of becoming [False]; faults of the insert or of the commit do
    become [False]; [save_snapshot] lets every fault escape. *)
Lemma save_wallet_mapping_connect_fault_escapes :
  fst (run (save_wallet_mapping "5FcoldkeyA" "0xABC" "sig" "msg" 1700000000000)
           (mkEnv 1700000000 0 FaultConnect) empty_db) = inr OperationalError /\
  fst (run (save_wallet_mapping "5FcoldkeyA" "0xABC" "sig" "msg" 1700000000000)
           (mkEnv 1700000000 0 FaultExecute) empty_db) = inl false /\
  fst (run (save_wallet_mapping "5FcoldkeyA" "0xABC" "sig" "msg" 1700000000000)
           (mkEnv 1700000000 0 FaultCommit) empty_db) = inl false /\
  fst (run (save_snapshot 100 [] []) (mkEnv 1700000000 0 FaultExecute) empty_db)
  = inr OperationalError.
Proof. vm_compute. repeat split. Qed.

(** ** Witnesses: the claims' theorems at concrete inputs *)

Lemma save_snapshot_then_get_latest_witness :
  fst (run (save_snapshot 100 [(1, 3); (2, 0); (3, 5)] [(1, 10); (3, 4)])
           (utc_env 1700000000) empty_db) = inl tt /\
  fst (get_latest_snapshot (utc_env 1700000005)
         (snd (run (save_snapshot 100 [(1, 3); (2, 0); (3, 5)] [(1, 10); (3, 4)])
                   (utc_env 1700000000) empty_db)))
  = inl (Some (mkSnapshotDict 100 1700000000 2 14
       (json_loads (json_dumps (str_keys [(1, 3); (2, 0); (3, 5)])))
       (json_loads (json_dumps (str_keys [(1, 10); (3, 4)]))))).
Proof.
  apply (save_snapshot_then_get_latest (utc_env 1700000000) (utc_env 1700000005));
    reflexivity.
Defined.

Lemma snapshot_recency_is_insertion_order_witness :
  fst (get_snapshots 1 (utc_env 1700000010)
         (snd (save_snapshot 100 [(2, 1)] [(2, 8)] (utc_env 1700000001)
                 (snd (run (save_snapshot 100 [(1, 1)] [(1, 5)])
                           (utc_env 1700000000) empty_db)))))
  = inl [mkSnapshotSummary 100 1700000001 1 8].
Proof.
  apply (snapshot_recency_is_insertion_order (utc_env 1700000000)
           (utc_env 1700000001) (utc_env 1700000010) empty_db
           [(1, 1)] [(1, 5)] [(2, 1)] [(2, 8)]); reflexivity.
Defined.

Lemma snapshot_roundtrip_under_str_key_witness :
  exists r,
    fst (get_latest_snapshot (utc_env 1700000001)
           (snd (run (save_snapshot 100 [(5, 1); (-3, 2)] [(5, 7)])
                     (utc_env 1700000000) empty_db))) = inl (Some r) /\
    dict_get (KStr "-3"%string) (sd_scores r) = Some 2.
Proof.
  destruct (snapshot_roundtrip_under_str_key (utc_env 1700000000)
              (utc_env 1700000001) empty_db 100 [(5, 1); (-3, 2)] [(5, 7)])
    as (r & Hr & Hs & _); [reflexivity | reflexivity | | |].
  - repeat constructor; simpl; intuition discriminate.
  - repeat constructor; simpl; tauto.
  - exists r. split; [exact Hr|]. apply (Hs (-3) 2). simpl. tauto.
Defined.

Lemma update_miner_data_full_replace_witness :
  filter (fun r => md_uid r =? 4)
    (miner_data (st_db (snd (update_miner_data 4 "hk2" "ck2" None [] 1 9
       (utc_env 1700000100)
       (snd (run (update_miner_data 4 "hk1" "ck1" (Some "0xabc"%string) [3; 4] 7 2)
                 (utc_env 1700000000) empty_db))))))
  = [mkMinerRow 4 "hk2" "ck2" None [] 1 9 1700000100].
Proof.
  apply (proj2 update_miner_data_full_replace (utc_env 1700000000)
           (utc_env 1700000100) (utc_env 1700000200) empty_db 4
           "hk1"%string "ck1"%string (Some "0xabc"%string) [3; 4] 7 2
           "hk2"%string "ck2"%string None [] 1 9); reflexivity.
Defined.

Lemma save_wallet_mapping_lowercases_witness :
  fst (get_evm_address_for_coldkey "5FcoldkeyA" (utc_env 1700000001)
         (snd (run (save_wallet_mapping "5FcoldkeyA" "0xABCdef" "sig" "msg"
                      1700000000000) (utc_env 1700000000) empty_db)))
  = inl (Some "0xabcdef"%string).
Proof.
  apply (save_wallet_mapping_lowercases (utc_env 1700000000) (utc_env 1700000001)
           empty_db "5FcoldkeyA" "0xABCdef" "sig" "msg" 1700000000000);
    reflexivity.
Defined.

Lemma cleanup_old_events_utc_host_witness :
  bet_events (st_db (snd (run (cleanup_old_events 14) (utc_env 1700000000)
                             (db_with_bet 1600000000)))) = [].
Proof.
  apply (cleanup_old_events_utc_host (utc_env 1700000000) (utc_env 1700000000)
           (db_with_bet 1600000000)); reflexivity.
Defined.

Lemma cleanup_old_events_logs_count_witness :
  st_log (snd (run (cleanup_old_events 14) (utc_env 1700000000)
                   (db_with_bet 1600000000)))
  = [(LInfo, CleanedUp 1)].
Proof.
  apply (cleanup_old_events_logs_count (utc_env 1700000000)
           (db_with_bet 1600000000) 14); reflexivity.
Defined.

(** ** Lemmas: ordering, searching and filtering rows *)

Section OrderDesc.
Context {A : Type} (key : A -> Z).

Let desc (a b : A) : Prop := key b <= key a.

Lemma insert_desc_perm (x : A) (l : list A) :
  Permutation (insert_desc key x l) (x :: l).
Proof.
  induction l as [|y l IH]; simpl; [reflexivity|].
  destruct (key y <=? key x); [reflexivity|].
  rewrite IH. apply perm_swap.
Qed.

Lemma order_desc_perm (l : list A) : Permutation (order_desc key l) l.
Proof.
  induction l as [|y l IH]; simpl; [reflexivity|].
  unfold order_desc in *. simpl. rewrite insert_desc_perm. now constructor.
Qed.

Lemma insert_desc_hd (y x : A) (l : list A) :
  HdRel desc y l -> desc y x -> HdRel desc y (insert_desc key x l).
Proof.
  intros Hl Hx. destruct l as [|z l]; simpl; [now constructor|].
  destruct (key z <=? key x); constructor; [assumption|].
  now inversion Hl.
Qed.

Lemma insert_desc_sorted (x : A) (l : list A) :
  Sorted desc l -> Sorted desc (insert_desc key x l).
Proof.
  induction l as [|y l IH]; intro Hs; simpl; [now repeat constructor|].
  apply Sorted_inv in Hs as [Hs Hhd].
  destruct (key y <=? key x) eqn:E.
  - constructor; [now constructor|]. constructor. unfold desc. now apply Z.leb_le.
  - constructor; [now apply IH|]. apply insert_desc_hd; [assumption|].
    unfold desc. apply Z.leb_gt in E. lia.
Qed.

Lemma order_desc_sorted (l : list A) :
  Sorted (fun a b => key b <= key a) (order_desc key l).
Proof.
  induction l as [|y l IH]; [constructor|].
  unfold order_desc in *. simpl. now apply insert_desc_sorted.
Qed.
End OrderDesc.

Lemma order_by_id_desc_is_order_desc (l : list snapshot_row) :
  order_by_id_desc l = order_desc sn_id l.
Proof.
  unfold order_by_id_desc, order_desc. induction l as [|r l IH]; simpl; [reflexivity|].
  rewrite IH. generalize (fold_right (insert_desc sn_id) [] l) as m.
  induction m as [|r' m IHm]; simpl; [reflexivity|]. now rewrite IHm.
Qed.

Lemma find_app {A} (p : A -> bool) (l1 l2 : list A) :
  find p (l1 ++ l2) = match find p l1 with Some x => Some x | None => find p l2 end.
Proof.
  induction l1 as [|a l1 IH]; simpl; [reflexivity|]. destruct (p a); auto.
Qed.

(** Dropping rows that a search could never return does not change it. *)
Lemma find_filter_weaker {A} (p q : A -> bool) (l : list A) :
  (forall x, p x = true -> q x = true) -> find p (filter q l) = find p l.
Proof.
  intro H. induction l as [|a l IH]; simpl; [reflexivity|].
  destruct (q a) eqn:Eq; simpl; [now rewrite IH|].
  destruct (p a) eqn:Ep; [|exact IH]. apply H in Ep. congruence.
Qed.

Lemma filter_filter_weaker {A} (p q : A -> bool) (l : list A) :
  (forall x, p x = true -> q x = true) -> filter p (filter q l) = filter p l.
Proof.
  intro H. induction l as [|a l IH]; simpl; [reflexivity|].
  destruct (q a) eqn:Eq; simpl; [now rewrite IH|].
  destruct (p a) eqn:Ep; [|exact IH]. apply H in Ep. congruence.
Qed.

Lemma find_none_app_fresh {A} (p : A -> bool) (l : list A) (x : A) :
  p x = false -> find p (l ++ [x]) = find p l.
Proof.
  intro Hx. rewrite find_app. destruct (find p l); [reflexivity|]. simpl. now rewrite Hx.
Qed.

Lemma length_filter_pos_existsb {A} (p : A -> bool) (l : list A) :
  (0 <? Z.of_nat (List.length (filter p l))) = existsb p l.
Proof.
  induction l as [|a l IH]; simpl; [reflexivity|].
  destruct (p a); simpl; [|exact IH]. apply Z.ltb_lt. lia.
Qed.

Lemma filter_none_true {A} (p : A -> bool) (l : list A) :
  existsb p l = false -> filter (fun x => negb (p x)) l = l.
Proof.
  induction l as [|a l IH]; simpl; [reflexivity|].
  destruct (p a); simpl; [discriminate|]. intro H. now rewrite IH.
Qed.

(** ** Lemmas: the other queries and writers without a fault *)

Lemma get_cached_bet_events_ok (e : Env) (s : St) (addr : string) (since : Z) :
  env_fault e = NoFault ->
  get_cached_bet_events addr since e s
  = (inl (map bet_to_dict (order_desc be_timestamp
            (filter (bet_selected addr since) (bet_events (st_db s))))),
     mkSt (st_db s) (st_db s) (st_log s)).
Proof. destruct e as [n o f]; simpl; intros ->; reflexivity. Qed.

Lemma get_all_miner_data_ok (e : Env) (s : St) :
  env_fault e = NoFault ->
  get_all_miner_data e s
  = (inl (order_desc md_score (miner_data (st_db s))),
     mkSt (st_db s) (st_db s) (st_log s)).
Proof. destruct e as [n o f]; simpl; intros ->; reflexivity. Qed.

Lemma get_all_wallet_mappings_ok (e : Env) (s : St) :
  env_fault e = NoFault ->
  get_all_wallet_mappings e s
  = (inl (map wallet_to_summary (order_desc wm_verified_at (wallet_mappings (st_db s)))),
     mkSt (st_db s) (st_db s) (st_log s)).
Proof. destruct e as [n o f]; simpl; intros ->; reflexivity. Qed.

Lemma get_snapshot_by_block_ok (e : Env) (s : St) (bn : Z) :
  env_fault e = NoFault ->
  get_snapshot_by_block bn e s
  = (inl (option_map snapshot_to_dict
            (find (fun r => sn_block_number r =? bn) (snapshots (st_db s)))),
     mkSt (st_db s) (st_db s) (st_log s)).
Proof. destruct e as [n o f]; simpl; intros ->; reflexivity. Qed.

Lemma delete_wallet_mapping_ok (e : Env) (s : St) (ck : string) :
  env_fault e = NoFault ->
  delete_wallet_mapping ck e s
  = (inl (existsb (fun r => String.eqb (wm_coldkey r) ck) (wallet_mappings (st_db s))),
     let d' := snd (sql_delete_wallet ck e (st_db s)) in mkSt d' d' (st_log s)).
Proof.
  destruct e as [n o f]; simpl; intros ->.
  unfold delete_wallet_mapping, bind, ret, sql_connect, sql_execute, sql_commit,
    sql_close, sql_delete_wallet. simpl. now rewrite length_filter_pos_existsb.
Qed.

(** ** Further properties of the module *)

(** [get_cached_bet_events(addr, since)] returns the events cached for
    exactly [addr] with [timestamp >= since], each once, newest first. *)
Theorem get_cached_bet_events_selects_and_orders (e : Env) (s : St)
  (addr : string) (since : Z) :
  env_fault e = NoFault ->
  exists rows,
    fst (get_cached_bet_events addr since e s) = inl (map bet_to_dict rows) /\
    Permutation rows (filter (bet_selected addr since) (bet_events (st_db s))) /\
    Sorted (fun a b => be_timestamp b <= be_timestamp a) rows.
Proof.
  intro Hf. rewrite get_cached_bet_events_ok by assumption.
  eexists. split; [reflexivity|]. split; [apply order_desc_perm | apply order_desc_sorted].
Qed.

(** A newly cached event is read back by [get_cached_bet_events] for its
    address from any [since] up to its timestamp. *)
Theorem cache_then_get_cached_bet_events (e1 e2 : Env) (s : St) (r : bet_row) (since : Z) :
  env_fault e1 = NoFault -> env_fault e2 = NoFault ->
  ~ In (bet_key r) (map bet_key (bet_events (st_db s))) ->
  since <= be_timestamp r ->
  exists out,
    fst (get_cached_bet_events (be_evm_address r) since e2
           (snd (cache_bet_row r e1 s))) = inl out /\
    In (bet_to_dict r) out.
Proof.
  intros H1 H2 Hn Hs.
  rewrite get_cached_bet_events_ok by assumption.
  eexists. split; [reflexivity|]. apply in_map.
  eapply Permutation_in; [symmetry; apply order_desc_perm|].
  apply filter_In. split.
  - rewrite cache_bet_row_run, H1. simpl.
    destruct (existsb (bet_key_eqb r) (bet_events (st_db s))) eqn:E.
    + apply existsb_bet_key in E. contradiction.
    + simpl. apply in_app_iff. right. now left.
  - unfold bet_selected. rewrite String.eqb_refl. simpl. now apply Z.leb_le.
Qed.

(** A sweep by [cleanup_old_events(days)] does not change what
    [get_cached_bet_events] returns for any [since] at or after the
    sweep's cutoff. *)
Theorem cleanup_keeps_reads_after_cutoff (e1 e2 : Env) (s : St) (days : Z)
  (addr : string) (since : Z) :
  env_fault e1 = NoFault -> env_fault e2 = NoFault ->
  env_now e1 - env_utc_offset e1 - days * 86400 <= since ->
  fst (get_cached_bet_events addr since e2 (snd (cleanup_old_events days e1 s)))
  = fst (get_cached_bet_events addr since e2 s).
Proof.
  intros H1 H2 Hc. rewrite cleanup_old_events_ok by assumption. cbn [snd].
  rewrite !get_cached_bet_events_ok by assumption. cbn [fst st_db].
  unfold sql_delete_bets_before. cbn [snd bet_events set_bet_events].
  rewrite filter_filter_weaker; [reflexivity|].
  intros x Hx. unfold bet_selected in Hx. apply andb_true_iff in Hx as [_ Hx].
  apply Z.leb_le in Hx. apply negb_true_iff, Z.ltb_ge. lia.
Qed.

(** [get_all_miner_data()] returns every miner row once, by decreasing
    score. *)
Theorem get_all_miner_data_sorted (e : Env) (s : St) :
  env_fault e = NoFault ->
  exists rows,
    fst (get_all_miner_data e s) = inl rows /\
    Permutation rows (miner_data (st_db s)) /\
    Sorted (fun a b => md_score b <= md_score a) rows.
Proof.
  intro Hf. rewrite get_all_miner_data_ok by assumption.
  eexists. split; [reflexivity|]. split; [apply order_desc_perm | apply order_desc_sorted].
Qed.

(** [get_all_wallet_mappings()] returns every mapping once (without its
    signature and message), most recently verified first. *)
Theorem get_all_wallet_mappings_sorted (e : Env) (s : St) :
  env_fault e = NoFault ->
  exists rows,
    fst (get_all_wallet_mappings e s) = inl (map wallet_to_summary rows) /\
    Permutation rows (wallet_mappings (st_db s)) /\
    Sorted (fun a b => wm_verified_at b <= wm_verified_at a) rows.
Proof.
  intro Hf. rewrite get_all_wallet_mappings_ok by assumption.
  eexists. split; [reflexivity|]. split; [apply order_desc_perm | apply order_desc_sorted].
Qed.

Lemma find_filter_negb_none {A} (p : A -> bool) (l : list A) :
  find p (filter (fun x => negb (p x)) l) = None.
Proof.
  induction l as [|a l IH]; simpl; [reflexivity|].
  destruct (p a) eqn:E; simpl; [exact IH|]. now rewrite E.
Qed.

Lemma set_wallet_mappings_same (d : DB) : set_wallet_mappings (wallet_mappings d) d = d.
Proof. now destruct d. Qed.

(** A faulting [save_wallet_mapping] commits nothing. *)
Lemma save_wallet_mapping_fault (e : Env) (s : St) ck ev sg msg ts :
  env_fault e <> NoFault ->
  st_db (snd (save_wallet_mapping ck ev sg msg ts e s)) = st_db s.
Proof. destruct e as [n o []]; simpl; intro H; [congruence|..]; reflexivity. Qed.

(** A faulting [delete_wallet_mapping] raises and commits nothing. *)
Lemma delete_wallet_mapping_fault (e : Env) (s : St) (ck : string) :
  env_fault e <> NoFault ->
  fst (delete_wallet_mapping ck e s) = inr OperationalError /\
  st_db (snd (delete_wallet_mapping ck e s)) = st_db s.
Proof. destruct e as [n o []]; simpl; intro H; [congruence|..]; split; reflexivity. Qed.

(** [delete_wallet_mapping(coldkey)] returns whether a mapping for
    [coldkey] existed, removes it and only it, so that [get_wallet_mapping]
    then finds nothing; with no mapping for [coldkey] it returns [False]
    and leaves the store as it was. *)
Theorem delete_wallet_mapping_removes (e1 e2 : Env) (s : St) (ck : string) :
  env_fault e1 = NoFault -> env_fault e2 = NoFault ->
  let s1 := snd (delete_wallet_mapping ck e1 s) in
  fst (delete_wallet_mapping ck e1 s)
  = inl (existsb (fun r => String.eqb (wm_coldkey r) ck) (wallet_mappings (st_db s))) /\
  wallet_mappings (st_db s1)
  = filter (fun r => negb (String.eqb (wm_coldkey r) ck)) (wallet_mappings (st_db s)) /\
  fst (get_wallet_mapping ck e2 s1) = inl None /\
  (existsb (fun r => String.eqb (wm_coldkey r) ck) (wallet_mappings (st_db s)) = false ->
   st_db s1 = st_db s).
Proof.
  intros H1 H2 s1. unfold s1. rewrite delete_wallet_mapping_ok by assumption.
  cbn [fst snd st_db]. unfold sql_delete_wallet. cbn [snd wallet_mappings set_wallet_mappings].
  split; [reflexivity|]. split; [reflexivity|]. split.
  - rewrite get_wallet_mapping_ok by assumption. cbn [fst st_db wallet_mappings set_wallet_mappings].
    now rewrite (find_filter_negb_none (fun r => String.eqb (wm_coldkey r) ck)).
  - intro Hn. rewrite (filter_none_true (fun r => String.eqb (wm_coldkey r) ck)) by assumption.
    apply set_wallet_mappings_same.
Qed.

(** A second [save_wallet_mapping] for the same coldkey replaces the
    first: one row remains for the coldkey, made of the second call's
    values, and [get_evm_address_for_coldkey] returns the second address in
    lowercase. *)
Theorem save_wallet_mapping_rebinds (e1 e2 e3 : Env) (d : DB) (ck : string)
  (ev1 sg1 m1 ev2 sg2 m2 : string) (t1 t2 : Z) :
  env_fault e1 = NoFault -> env_fault e2 = NoFault -> env_fault e3 = NoFault ->
  let s2 := snd (save_wallet_mapping ck ev2 sg2 m2 t2 e2
                   (snd (run (save_wallet_mapping ck ev1 sg1 m1 t1) e1 d))) in
  filter (fun r => String.eqb (wm_coldkey r) ck) (wallet_mappings (st_db s2))
  = [mkWalletRow ck (py_lower ev2) sg2 m2 t2 (env_now e2)] /\
  fst (get_evm_address_for_coldkey ck e3 s2) = inl (Some (py_lower ev2)).
Proof.
  intros H1 H2 H3 s2. unfold s2, run.
  rewrite save_wallet_mapping_ok by assumption. cbn [snd].
  rewrite save_wallet_mapping_ok by assumption. cbn [snd].
  unfold get_evm_address_for_coldkey, bind at 1.
  rewrite get_wallet_mapping_ok by assumption.
  unfold sql_replace_wallet.
  cbn [snd st_db wallet_mappings set_wallet_mappings wm_coldkey].
  split.
  - rewrite filter_app.
    rewrite (filter_keeps_none (fun r => String.eqb (wm_coldkey r) ck)).
    simpl. now rewrite String.eqb_refl.
  - rewrite (find_filter_negb_app (fun r => String.eqb (wm_coldkey r) ck));
      [reflexivity|]. simpl. apply String.eqb_refl.
Qed.

(** Every [save_wallet_mapping] and [delete_wallet_mapping], faulting or
    not, keeps one mapping at most per coldkey. *)
Theorem wallet_coldkeys_stay_unique :
  (forall e s ck ev sg msg ts,
     NoDup (map wm_coldkey (wallet_mappings (st_db s))) ->
     NoDup (map wm_coldkey (wallet_mappings (st_db
       (snd (save_wallet_mapping ck ev sg msg ts e s)))))) /\
  (forall e s ck,
     NoDup (map wm_coldkey (wallet_mappings (st_db s))) ->
     NoDup (map wm_coldkey (wallet_mappings (st_db
       (snd (delete_wallet_mapping ck e s)))))).
Proof.
  split.
  - intros e s ck ev sg msg ts Hnd. destruct (env_fault e) eqn:Hf;
      [| rewrite save_wallet_mapping_fault by congruence; exact Hnd ..].
    rewrite save_wallet_mapping_ok by assumption.
    unfold sql_replace_wallet. cbn [snd st_db wallet_mappings set_wallet_mappings].
    apply (NoDup_replace wm_coldkey String.eqb String.eqb_eq). exact Hnd.
  - intros e s ck Hnd. destruct (env_fault e) eqn:Hf;
      [| rewrite (proj2 (delete_wallet_mapping_fault e s ck ltac:(congruence)));
         exact Hnd ..].
    rewrite delete_wallet_mapping_ok by assumption.
    unfold sql_delete_wallet. cbn [snd st_db wallet_mappings set_wallet_mappings].
    now apply NoDup_map_filter.
Qed.

(** When the insert or the commit of [save_wallet_mapping] faults, the
    call returns [False], logs an error and leaves the store as it was. *)
Theorem save_wallet_mapping_fault_returns_false (e : Env) (s : St)
  (ck ev sg msg : string) (ts : Z) :
  env_fault e = FaultExecute \/ env_fault e = FaultCommit ->
  fst (save_wallet_mapping ck ev sg msg ts e s) = inl false /\
  st_db (snd (save_wallet_mapping ck ev sg msg ts e s)) = st_db s /\
  st_log (snd (save_wallet_mapping ck ev sg msg ts e s))
  = st_log s ++ [(LError, WalletSaveFailed)].
Proof.
  destruct e as [n o f]; simpl; intros [-> | ->]; repeat split.
Qed.

(** ** Lemmas: faults, frames and snapshot queries *)

Lemma save_snapshot_fault (e : Env) (s : St) bn scores volumes :
  env_fault e <> NoFault ->
  fst (save_snapshot bn scores volumes e s) = inr OperationalError /\
  st_db (snd (save_snapshot bn scores volumes e s)) = st_db s.
Proof. destruct e as [n o []]; simpl; intro H; [congruence|..]; split; reflexivity. Qed.

Lemma cleanup_old_events_fault (e : Env) (s : St) (days : Z) :
  env_fault e <> NoFault ->
  fst (cleanup_old_events days e s) = inr OperationalError /\
  st_db (snd (cleanup_old_events days e s)) = st_db s.
Proof. destruct e as [n o []]; simpl; intro H; [congruence|..]; split; reflexivity. Qed.

Lemma get_miner_data_result (e : Env) (s : St) (uid : Z) :
  fst (get_miner_data uid e s)
  = match env_fault e with
    | FaultConnect | FaultExecute => inr OperationalError
    | NoFault | FaultCommit => inl (find (fun r => md_uid r =? uid) (miner_data (st_db s)))
    end.
Proof. destruct e as [n o []]; reflexivity. Qed.

Lemma get_wallet_mapping_result (e : Env) (s : St) (ck : string) :
  fst (get_wallet_mapping ck e s)
  = match env_fault e with
    | FaultConnect | FaultExecute => inr OperationalError
    | NoFault | FaultCommit =>
        inl (find (fun r => String.eqb (wm_coldkey r) ck) (wallet_mappings (st_db s)))
    end.
Proof. destruct e as [n o []]; reflexivity. Qed.

Lemma find_none_forall {A} (p : A -> bool) (l : list A) :
  (forall x, In x l -> p x = false) -> find p l = None.
Proof.
  induction l as [|a l IH]; intro H; simpl; [reflexivity|].
  rewrite (H a (or_introl eq_refl)). apply IH. intros x Hx. apply H. now right.
Qed.

Lemma hd_error_map {A B} (f : A -> B) (l : list A) :
  hd_error (map f l) = option_map f (hd_error l).
Proof. now destruct l. Qed.

Lemma hd_error_sql_limit {A} (n : Z) (l : list A) :
  n <> 0 -> hd_error (sql_limit n l) = hd_error l.
Proof.
  intro Hn. unfold sql_limit. destruct (n <? 0) eqn:E; [reflexivity|].
  apply Z.ltb_ge in E. destruct l as [|a l]; [now destruct (Z.to_nat n)|].
  destruct (Z.to_nat n) eqn:En; [lia|reflexivity].
Qed.

Lemma length_order_by_id_desc (l : list snapshot_row) :
  List.length (order_by_id_desc l) = List.length l.
Proof.
  rewrite order_by_id_desc_is_order_desc. apply Permutation_length, order_desc_perm.
Qed.

(** The id that [sql_insert_snapshot] gives exceeds every stored id. *)
Lemma new_snapshot_id_fresh (d : DB) :
  ~ In (1 + Z.max (snapshots_seq d) (max_id (snapshots d))) (map sn_id (snapshots d)).
Proof.
  intro Hin. apply in_map_iff in Hin as (x & Hx & Hin).
  pose proof (max_id_bound (snapshots d)) as HB. rewrite Forall_forall in HB.
  specialize (HB x Hin). lia.
Qed.

(** ** Faults, frames and the snapshot queries *)

(** When the storage engine faults, [save_snapshot],
    [update_miner_data], [cleanup_old_events] and [delete_wallet_mapping]
    let [sqlite3.OperationalError] escape and commit nothing. *)
Theorem writers_raise_on_fault (e : Env) (s : St) :
  env_fault e <> NoFault ->
  (forall bn scores volumes,
     fst (save_snapshot bn scores volumes e s) = inr OperationalError /\
     st_db (snd (save_snapshot bn scores volumes e s)) = st_db s) /\
  (forall uid hk ck ev dv wv sc,
     fst (update_miner_data uid hk ck ev dv wv sc e s) = inr OperationalError /\
     st_db (snd (update_miner_data uid hk ck ev dv wv sc e s)) = st_db s) /\
  (forall days,
     fst (cleanup_old_events days e s) = inr OperationalError /\
     st_db (snd (cleanup_old_events days e s)) = st_db s) /\
  (forall ck,
     fst (delete_wallet_mapping ck e s) = inr OperationalError /\
     st_db (snd (delete_wallet_mapping ck e s)) = st_db s).
Proof.
  intro H. repeat split; intros;
    first [ apply save_snapshot_fault | apply update_miner_data_fault
          | apply cleanup_old_events_fault | apply delete_wallet_mapping_fault ];
    exact H.
Qed.

(** [cache_bet_event] swallows a fault of the insert or the commit: it
    returns [None], logs at debug level and leaves the store as it was. *)
Theorem cache_bet_event_swallows_fault (e : Env) (s : St)
  (addr : string) (game amount side block ts : Z) :
  env_fault e = FaultExecute \/ env_fault e = FaultCommit ->
  cache_bet_event addr game amount side block ts e s
  = (inl tt, mkSt (st_db s) (st_db s) (st_log s ++ [(LDebug, BetCacheError)])).
Proof.
  pose proof (cache_bet_row_run (mkBetRow addr game amount side block ts) e s) as R.
  unfold cache_bet_row in R. cbn [be_evm_address be_game_id be_amount be_side
    be_block_number be_timestamp] in R.
  intros [Hf | Hf]; rewrite Hf in R; exact R.
Qed.

(** No read function of the module changes the committed tables, whether
    or not the storage engine faults. *)
Theorem reads_leave_store_unchanged (e : Env) (s : St) :
  st_db (snd (get_latest_snapshot e s)) = st_db s /\
  (forall limit, st_db (snd (get_snapshots limit e s)) = st_db s) /\
  (forall bn, st_db (snd (get_snapshot_by_block bn e s)) = st_db s) /\
  (forall uid, st_db (snd (get_miner_data uid e s)) = st_db s) /\
  st_db (snd (get_all_miner_data e s)) = st_db s /\
  (forall addr since, st_db (snd (get_cached_bet_events addr since e s)) = st_db s) /\
  (forall ck, st_db (snd (get_wallet_mapping ck e s)) = st_db s) /\
  (forall ck, st_db (snd (get_evm_address_for_coldkey ck e s)) = st_db s) /\
  st_db (snd (get_all_wallet_mappings e s)) = st_db s.
Proof. destruct e as [n o []]; repeat split; reflexivity. Qed.

(** Each writer changes its own table only. *)
Theorem writers_touch_own_table (e : Env) (s : St) :
  (forall bn scores volumes,
     let d := st_db (snd (save_snapshot bn scores volumes e s)) in
     miner_data d = miner_data (st_db s) /\ bet_events d = bet_events (st_db s) /\
     wallet_mappings d = wallet_mappings (st_db s)) /\
  (forall uid hk ck ev dv wv sc,
     let d := st_db (snd (update_miner_data uid hk ck ev dv wv sc e s)) in
     snapshots d = snapshots (st_db s) /\ snapshots_seq d = snapshots_seq (st_db s) /\
     bet_events d = bet_events (st_db s) /\ wallet_mappings d = wallet_mappings (st_db s)) /\
  (forall addr game amount side block ts,
     let d := st_db (snd (cache_bet_event addr game amount side block ts e s)) in
     snapshots d = snapshots (st_db s) /\ snapshots_seq d = snapshots_seq (st_db s) /\
     miner_data d = miner_data (st_db s) /\ wallet_mappings d = wallet_mappings (st_db s)) /\
  (forall days,
     let d := st_db (snd (cleanup_old_events days e s)) in
     snapshots d = snapshots (st_db s) /\ snapshots_seq d = snapshots_seq (st_db s) /\
     miner_data d = miner_data (st_db s) /\ wallet_mappings d = wallet_mappings (st_db s)) /\
  (forall ck ev sg msg ts,
     let d := st_db (snd (save_wallet_mapping ck ev sg msg ts e s)) in
     snapshots d = snapshots (st_db s) /\ snapshots_seq d = snapshots_seq (st_db s) /\
     miner_data d = miner_data (st_db s) /\ bet_events d = bet_events (st_db s)) /\
  (forall ck,
     let d := st_db (snd (delete_wallet_mapping ck e s)) in
     snapshots d = snapshots (st_db s) /\ snapshots_seq d = snapshots_seq (st_db s) /\
     miner_data d = miner_data (st_db s) /\ bet_events d = bet_events (st_db s)).
Proof.
  repeat split; intros; destruct (env_fault e) eqn:Hf;
    first
      [ rewrite save_snapshot_ok by exact Hf
      | rewrite update_miner_data_ok by exact Hf
      | pose proof (cache_bet_row_run (mkBetRow addr game amount side block ts) e s) as R;
        unfold cache_bet_row in R; cbn [be_evm_address be_game_id be_amount be_side
          be_block_number be_timestamp] in R; rewrite Hf in R; rewrite R
      | rewrite cleanup_old_events_ok by exact Hf
      | rewrite save_wallet_mapping_ok by exact Hf
      | rewrite delete_wallet_mapping_ok by exact Hf
      | rewrite (proj2 (save_snapshot_fault e s bn scores volumes ltac:(congruence)))
      | rewrite (proj2 (update_miner_data_fault e s uid hk ck ev dv wv sc ltac:(congruence)))
      | rewrite (proj2 (cleanup_old_events_fault e s days ltac:(congruence)))
      | rewrite (save_wallet_mapping_fault e s ck ev sg msg ts ltac:(congruence))
      | rewrite (proj2 (delete_wallet_mapping_fault e s ck ltac:(congruence))) ];
    try reflexivity;
    cbn [snd st_db]; try (destruct (existsb _ _)); reflexivity.
Qed.

(** [get_snapshots(limit)] returns [min(limit, count)] summaries for a
    non-negative [limit] and every snapshot for a negative one; for any
    [limit] but 0 its first summary is the one of the snapshot that
    [get_latest_snapshot] returns. *)
Theorem get_snapshots_size_and_head (e : Env) (s : St) (limit : Z) :
  env_fault e = NoFault ->
  exists out latest,
    fst (get_snapshots limit e s) = inl out /\
    fst (get_latest_snapshot e s) = inl latest /\
    List.length out = (if limit <? 0 then List.length (snapshots (st_db s))
                       else Nat.min (Z.to_nat limit) (List.length (snapshots (st_db s)))) /\
    (limit <> 0 ->
     hd_error out = option_map (fun sd => mkSnapshotSummary (sd_block_number sd)
                      (sd_timestamp sd) (sd_total_miners sd) (sd_total_volume sd)) latest).
Proof.
  intro Hf. rewrite get_snapshots_ok, get_latest_snapshot_ok by exact Hf.
  do 2 eexists. split; [reflexivity|]. split; [reflexivity|]. split.
  - rewrite length_map. unfold sql_limit. destruct (limit <? 0).
    + apply length_order_by_id_desc.
    + rewrite length_firstn. now rewrite length_order_by_id_desc.
  - intro Hl. rewrite hd_error_map, hd_error_sql_limit by exact Hl.
    rewrite hd_error_sql_limit by lia.
    now destruct (order_by_id_desc (snapshots (st_db s))).
Qed.

(** [save_snapshot] keeps the snapshot ids distinct, faulting or not. *)
Theorem save_snapshot_keeps_ids_unique (e : Env) (s : St) bn scores volumes :
  NoDup (map sn_id (snapshots (st_db s))) ->
  NoDup (map sn_id (snapshots (st_db (snd (save_snapshot bn scores volumes e s))))).
Proof.
  intro Hnd. destruct (env_fault e) eqn:Hf;
    [| rewrite (proj2 (save_snapshot_fault e s bn scores volumes ltac:(congruence)));
       exact Hnd ..].
  rewrite save_snapshot_ok by exact Hf.
  unfold sql_insert_snapshot, set_snapshots. cbn [snd st_db snapshots].
  rewrite map_app. cbn [map sn_id].
  apply (Permutation_NoDup (Permutation_cons_append _ _)).
  constructor; [apply new_snapshot_id_fresh | exact Hnd].
Qed.

(** [get_snapshot_by_block(bn)] returns a stored snapshot of block [bn],
    and [None] only when no stored snapshot has block [bn]. *)
Theorem get_snapshot_by_block_finds (e : Env) (s : St) (bn : Z) :
  env_fault e = NoFault ->
  match fst (get_snapshot_by_block bn e s) with
  | inl (Some sd) =>
      sd_block_number sd = bn /\
      exists r, In r (snapshots (st_db s)) /\ snapshot_to_dict r = sd
  | inl None => forall r, In r (snapshots (st_db s)) -> sn_block_number r <> bn
  | inr _ => False
  end.
Proof.
  intro Hf. rewrite get_snapshot_by_block_ok by exact Hf. cbn [fst].
  destruct (find (fun r => sn_block_number r =? bn) (snapshots (st_db s))) as [r|] eqn:E;
    cbn [option_map].
  - apply find_some in E as [Hin Hb]. apply Z.eqb_eq in Hb.
    split; [exact Hb|]. now exists r.
  - intros r Hin Hb. apply (find_none _ _ E) in Hin. apply Z.eqb_neq in Hin. contradiction.
Qed.

(** After [save_snapshot(bn, ...)] into a store with no snapshot of block
    [bn], [get_snapshot_by_block(bn)] returns the same snapshot as
    [get_latest_snapshot()]: the one just saved. *)
Theorem save_snapshot_then_get_by_block (e1 e2 : Env) (d : DB) (bn : Z)
  (scores volumes : list (Z * Z)) :
  env_fault e1 = NoFault -> env_fault e2 = NoFault ->
  (forall r, In r (snapshots d) -> sn_block_number r <> bn) ->
  let s1 := snd (run (save_snapshot bn scores volumes) e1 d) in
  exists sd,
    fst (get_snapshot_by_block bn e2 s1) = inl (Some sd) /\
    fst (get_latest_snapshot e2 s1) = inl (Some sd).
Proof.
  intros H1 H2 Hfresh s1. unfold s1, run.
  rewrite save_snapshot_ok by exact H1. cbn [snd st_db].
  rewrite get_snapshot_by_block_ok, get_latest_snapshot_ok by exact H2. cbn [fst st_db].
  rewrite order_after_insert_snapshot.
  unfold sql_insert_snapshot at 1, set_snapshots at 1. cbn [snd snapshots].
  rewrite find_app, find_none_forall.
  - cbn [find sn_block_number]. rewrite Z.eqb_refl.
    eexists. split; reflexivity.
  - intros x Hx. apply Z.eqb_neq, Hfresh, Hx.
Qed.

(** [update_miner_data] for one uid leaves what [get_miner_data] returns
    for every other uid as it was. *)
Theorem update_miner_data_frame (e1 e2 : Env) (s : St) (u v : Z) hk ck ev dv wv sc :
  u <> v ->
  fst (get_miner_data v e2 (snd (update_miner_data u hk ck ev dv wv sc e1 s)))
  = fst (get_miner_data v e2 s).
Proof.
  intro Huv. rewrite !get_miner_data_result.
  destruct (env_fault e1) eqn:Hf1;
    [| rewrite (proj2 (update_miner_data_fault e1 s u hk ck ev dv wv sc ltac:(congruence)));
       reflexivity ..].
  rewrite update_miner_data_ok by exact Hf1.
  unfold sql_replace_miner, set_miner_data. cbn [snd st_db miner_data md_uid].
  rewrite find_none_app_fresh by (cbn [md_uid]; apply Z.eqb_neq; congruence).
  rewrite (find_filter_weaker (fun r => md_uid r =? v)
             (fun r => negb (md_uid r =? u))).
  - reflexivity.
  - intros x Hx. apply Z.eqb_eq in Hx. subst v. apply negb_true_iff, Z.eqb_neq. congruence.
Qed.

(** [save_wallet_mapping] and [delete_wallet_mapping] for one coldkey
    leave what [get_wallet_mapping] returns for every other coldkey as it
    was. *)
Theorem wallet_mapping_frame (e1 e2 : Env) (s : St) (ck ck' : string) :
  ck <> ck' ->
  (forall ev sg msg ts,
     fst (get_wallet_mapping ck' e2 (snd (save_wallet_mapping ck ev sg msg ts e1 s)))
     = fst (get_wallet_mapping ck' e2 s)) /\
  fst (get_wallet_mapping ck' e2 (snd (delete_wallet_mapping ck e1 s)))
  = fst (get_wallet_mapping ck' e2 s).
Proof.
  intro Hne.
  assert (Hw : forall x, String.eqb (wm_coldkey x) ck' = true ->
                         negb (String.eqb (wm_coldkey x) ck) = true).
  { intros x Hx. apply String.eqb_eq in Hx. rewrite Hx.
    apply negb_true_iff, String.eqb_neq. congruence. }
  split; [intros ev sg msg ts|]; rewrite !get_wallet_mapping_result;
    destruct (env_fault e1) eqn:Hf1.
  - rewrite save_wallet_mapping_ok by exact Hf1.
    unfold sql_replace_wallet, set_wallet_mappings.
    cbn [snd st_db wallet_mappings wm_coldkey].
    rewrite find_none_app_fresh by (cbn [wm_coldkey]; apply String.eqb_neq; congruence).
    now rewrite (find_filter_weaker (fun r => String.eqb (wm_coldkey r) ck')
                   (fun r => negb (String.eqb (wm_coldkey r) ck))).
  - rewrite save_wallet_mapping_fault by congruence; reflexivity.
  - rewrite save_wallet_mapping_fault by congruence; reflexivity.
  - rewrite save_wallet_mapping_fault by congruence; reflexivity.
  - rewrite delete_wallet_mapping_ok by exact Hf1.
    unfold sql_delete_wallet, set_wallet_mappings.
    cbn [snd st_db wallet_mappings].
    now rewrite (find_filter_weaker (fun r => String.eqb (wm_coldkey r) ck')
                   (fun r => negb (String.eqb (wm_coldkey r) ck))).
  - rewrite (proj2 (delete_wallet_mapping_fault e1 s ck ltac:(congruence))); reflexivity.
  - rewrite (proj2 (delete_wallet_mapping_fault e1 s ck ltac:(congruence))); reflexivity.
  - rewrite (proj2 (delete_wallet_mapping_fault e1 s ck ltac:(congruence))); reflexivity.
Qed.

(** ** Witnesses of the further properties *)

Lemma get_cached_bet_events_selects_and_orders_witness :
  exists rows,
    fst (get_cached_bet_events "0xabc" 1600000000 (utc_env 1700001000) (st_of db_full))
    = inl (map bet_to_dict rows) /\
    Permutation rows (filter (bet_selected "0xabc" 1600000000) bets_three) /\
    Sorted (fun a b => be_timestamp b <= be_timestamp a) rows.
Proof.
  apply (get_cached_bet_events_selects_and_orders (utc_env 1700001000) (st_of db_full)
           "0xabc" 1600000000); reflexivity.
Defined.

Lemma cache_then_get_cached_bet_events_witness :
  exists out,
    fst (get_cached_bet_events "0xabc" 1700000000 (utc_env 1700001000)
           (snd (cache_bet_row (mkBetRow "0xabc" 9 50 1 102 1700000600)
                   (utc_env 1700000600) (st_of db_full)))) = inl out /\
    In (bet_to_dict (mkBetRow "0xabc" 9 50 1 102 1700000600)) out.
Proof.
  apply (cache_then_get_cached_bet_events (utc_env 1700000600) (utc_env 1700001000)
           (st_of db_full) (mkBetRow "0xabc" 9 50 1 102 1700000600) 1700000000);
    [reflexivity | reflexivity | simpl; intuition discriminate | simpl; lia].
Defined.

Lemma cleanup_keeps_reads_after_cutoff_witness :
  fst (get_cached_bet_events "0xabc" 1699913600 (utc_env 1700000100)
         (snd (cleanup_old_events 1 (utc_env 1700000000) (st_of db_full))))
  = fst (get_cached_bet_events "0xabc" 1699913600 (utc_env 1700000100) (st_of db_full)).
Proof.
  apply (cleanup_keeps_reads_after_cutoff (utc_env 1700000000) (utc_env 1700000100)
           (st_of db_full) 1 "0xabc" 1699913600);
    [reflexivity | reflexivity | simpl; lia].
Defined.

Lemma get_all_miner_data_sorted_witness :
  exists rows,
    fst (get_all_miner_data (utc_env 1700000000) (st_of db_full)) = inl rows /\
    Permutation rows miners_two /\
    Sorted (fun a b => md_score b <= md_score a) rows.
Proof.
  apply (get_all_miner_data_sorted (utc_env 1700000000) (st_of db_full)); reflexivity.
Defined.

Lemma get_all_wallet_mappings_sorted_witness :
  exists rows,
    fst (get_all_wallet_mappings (utc_env 1700000000) (st_of db_full))
    = inl (map wallet_to_summary rows) /\
    Permutation rows wallets_two /\
    Sorted (fun a b => wm_verified_at b <= wm_verified_at a) rows.
Proof.
  apply (get_all_wallet_mappings_sorted (utc_env 1700000000) (st_of db_full)); reflexivity.
Defined.

Lemma delete_wallet_mapping_removes_witness :
  fst (delete_wallet_mapping "ckA" (utc_env 1700000000) (st_of db_full)) = inl true /\
  fst (get_wallet_mapping "ckA" (utc_env 1700000100)
         (snd (delete_wallet_mapping "ckA" (utc_env 1700000000) (st_of db_full))))
  = inl None.
Proof.
  destruct (delete_wallet_mapping_removes (utc_env 1700000000) (utc_env 1700000100)
              (st_of db_full) "ckA" eq_refl eq_refl) as (H1 & _ & H3 & _).
  split; [exact H1 | exact H3].
Defined.

Lemma save_wallet_mapping_rebinds_witness :
  fst (get_evm_address_for_coldkey "ckC" (utc_env 1700000200)
         (snd (save_wallet_mapping "ckC" "0xDEF" "s2" "m2" 5 (utc_env 1700000100)
                 (snd (run (save_wallet_mapping "ckC" "0x123" "s1" "m1" 4)
                           (utc_env 1700000000) db_full)))))
  = inl (Some "0xdef"%string).
Proof.
  exact (proj2 (save_wallet_mapping_rebinds (utc_env 1700000000) (utc_env 1700000100)
                  (utc_env 1700000200) db_full "ckC" "0x123" "s1" "m1" "0xDEF" "s2" "m2"
                  4 5 eq_refl eq_refl eq_refl)).
Defined.

Lemma wallet_coldkeys_stay_unique_witness :
  NoDup (map wm_coldkey (wallet_mappings (st_db
    (snd (save_wallet_mapping "ckA" "0x111" "s" "m" 3 (utc_env 1700000000)
            (st_of db_full)))))).
Proof.
  apply (proj1 wallet_coldkeys_stay_unique). simpl.
  repeat constructor; simpl; intuition discriminate.
Defined.

Lemma save_wallet_mapping_fault_returns_false_witness :
  fst (save_wallet_mapping "ckC" "0x123" "s" "m" 4 (fault_env FaultCommit)
         (st_of db_full)) = inl false /\
  st_db (snd (save_wallet_mapping "ckC" "0x123" "s" "m" 4 (fault_env FaultCommit)
                (st_of db_full))) = db_full.
Proof.
  destruct (save_wallet_mapping_fault_returns_false (fault_env FaultCommit) (st_of db_full)
              "ckC" "0x123" "s" "m" 4 (or_intror eq_refl)) as (H1 & H2 & _).
  split; [exact H1 | exact H2].
Defined.

Lemma writers_raise_on_fault_witness :
  fst (cleanup_old_events 1 (fault_env FaultCommit) (st_of db_full)) = inr OperationalError /\
  st_db (snd (cleanup_old_events 1 (fault_env FaultCommit) (st_of db_full))) = db_full.
Proof.
  exact (proj1 (proj2 (proj2 (writers_raise_on_fault (fault_env FaultCommit) (st_of db_full)
           ltac:(cbv; congruence)))) 1).
Defined.

Lemma cache_bet_event_swallows_fault_witness :
  cache_bet_event "0xabc" 9 50 1 102 1700000600 (fault_env FaultExecute) (st_of db_full)
  = (inl tt, mkSt db_full db_full [(LDebug, BetCacheError)]).
Proof.
  apply (cache_bet_event_swallows_fault (fault_env FaultExecute) (st_of db_full)
           "0xabc" 9 50 1 102 1700000600 (or_introl eq_refl)).
Defined.

Lemma get_snapshots_size_and_head_witness :
  exists out latest,
    fst (get_snapshots 1 (utc_env 1700000400) (st_of db_full)) = inl out /\
    fst (get_latest_snapshot (utc_env 1700000400) (st_of db_full)) = inl latest /\
    List.length out = 1%nat /\
    hd_error out = option_map (fun sd => mkSnapshotSummary (sd_block_number sd)
                     (sd_timestamp sd) (sd_total_miners sd) (sd_total_volume sd)) latest.
Proof.
  destruct (get_snapshots_size_and_head (utc_env 1700000400) (st_of db_full) 1 eq_refl)
    as (out & latest & H1 & H2 & H3 & H4).
  exists out, latest. split; [exact H1|]. split; [exact H2|].
  split; [exact H3 | apply H4; discriminate].
Defined.

Lemma save_snapshot_keeps_ids_unique_witness :
  NoDup (map sn_id (snapshots (st_db
    (snd (save_snapshot 102 [(1, 2)] [(1, 3)] (utc_env 1700000720) (st_of db_full)))))).
Proof.
  apply save_snapshot_keeps_ids_unique. simpl.
  repeat constructor; simpl; intuition discriminate.
Defined.

Lemma get_snapshot_by_block_finds_witness :
  match fst (get_snapshot_by_block 101 (utc_env 1700000400) (st_of db_full)) with
  | inl (Some sd) =>
      sd_block_number sd = 101 /\
      exists r, In r snapshots_two /\ snapshot_to_dict r = sd
  | inl None => forall r, In r snapshots_two -> sn_block_number r <> 101
  | inr _ => False
  end.
Proof.
  exact (get_snapshot_by_block_finds (utc_env 1700000400) (st_of db_full) 101 eq_refl).
Defined.

Lemma save_snapshot_then_get_by_block_witness :
  exists sd,
    fst (get_snapshot_by_block 102 (utc_env 1700000800)
           (snd (run (save_snapshot 102 [(1, 2)] [(1, 3)]) (utc_env 1700000720) db_full)))
    = inl (Some sd) /\
    fst (get_latest_snapshot (utc_env 1700000800)
           (snd (run (save_snapshot 102 [(1, 2)] [(1, 3)]) (utc_env 1700000720) db_full)))
    = inl (Some sd).
Proof.
  apply (save_snapshot_then_get_by_block (utc_env 1700000720) (utc_env 1700000800)
           db_full 102 [(1, 2)] [(1, 3)]); [reflexivity | reflexivity |].
  simpl. intros r [<- | [<- | []]]; simpl; discriminate.
Defined.

Lemma update_miner_data_frame_witness :
  fst (get_miner_data 2 (utc_env 1700000100)
         (snd (update_miner_data 1 "hk9" "ck9" None [4] 2 1 (utc_env 1700000050)
                 (st_of db_full))))
  = fst (get_miner_data 2 (utc_env 1700000100) (st_of db_full)).
Proof.
  apply (update_miner_data_frame (utc_env 1700000050) (utc_env 1700000100) (st_of db_full)
           1 2 "hk9" "ck9" None [4] 2 1). discriminate.
Defined.

Lemma wallet_mapping_frame_witness :
  fst (get_wallet_mapping "ckB" (utc_env 1700000100)
         (snd (delete_wallet_mapping "ckA" (utc_env 1700000050) (st_of db_full))))
  = fst (get_wallet_mapping "ckB" (utc_env 1700000100) (st_of db_full)).
Proof.
  exact (proj2 (wallet_mapping_frame (utc_env 1700000050) (utc_env 1700000100)
                  (st_of db_full) "ckA" "ckB" ltac:(discriminate))).
Defined.
